(** * Drive Playground service: a shallow embedding of
      [scripts/drive_playground/drive_playground_service.py]

    The service is a thin HTTP facade (FastAPI) over one Google Drive folder.
    The embedding follows the source function by function:

    - Python strings are [string]s (sequences of 8-bit code points, which is
      also how the HTTP framework hands header values to the handlers);
    - [os.environ] and the files next to the script are finite maps;
    - exceptions are values of [exn]; a Python function is a computation in
      the monad [M], a state-and-exception monad over a [world] that holds the
      local files, the state of the storage provider and the log of calls
      made to the provider;
    - the storage client ([service.files()...execute()]) and the OAuth
      library are interfaces ([Provider], [OAuth]); [Drive] is a reference
      implementation of the first one;
    - FastAPI's routing is [app]: validation of the declared parameters and
      body ([validate_page_size], [validate_body]) followed by the handler,
      whose outcome is turned into a [response]. *)

From Stdlib Require Import ZArith Ascii String List Bool Lia.
From stdpp Require Import base option strings gmap.
Import ListNotations.
Open Scope string_scope.

(** ** Python string primitives *)

Module Py.

(** [str.isspace] on one character, for code points below 256. *)
Definition is_space (c : ascii) : bool :=
  let n := nat_of_ascii c in
  (((9 <=? n) && (n <=? 13)) || ((28 <=? n) && (n <=? 32))
   || (n =? 133) || (n =? 160))%nat.

Fixpoint lstrip (s : string) : string :=
  match s with
  | String c r => if is_space c then lstrip r else s
  | EmptyString => EmptyString
  end.

Fixpoint rstrip (s : string) : string :=
  match s with
  | String c r =>
      match rstrip r with
      | EmptyString => if is_space c then EmptyString else String c EmptyString
      | r' => String c r'
      end
  | EmptyString => EmptyString
  end.

(** [s.strip()] *)
Definition strip (s : string) : string := rstrip (lstrip s).

(** [s.startswith(p)] *)
Fixpoint startswith (p s : string) : bool :=
  match p, s with
  | EmptyString, _ => true
  | String a p', String b s' => if Ascii.eqb a b then startswith p' s' else false
  | String _ _, EmptyString => false
  end.

Fixpoint drop (n : nat) (s : string) : string :=
  match n, s with
  | O, _ => s
  | Datatypes.S n', String _ s' => drop n' s'
  | Datatypes.S _, EmptyString => EmptyString
  end.

(** [s.removeprefix(p)] *)
Definition removeprefix (p s : string) : string :=
  if startswith p s then drop (String.length p) s else s.

(** Truth value of a [str]: non-empty. *)
Definition truthy (s : string) : bool :=
  match s with EmptyString => false | String _ _ => true end.

(** [o or d] for [o : str | None] and [d : str]. *)
Definition or_else (o : option string) (d : string) : string :=
  match o with
  | Some s => if truthy s then s else d
  | None => d
  end.

(** [sep.join(l)] *)
Fixpoint join (sep : string) (l : list string) : string :=
  match l with
  | [] => EmptyString
  | [x] => x
  | x :: rest => x ++ sep ++ join sep rest
  end.

(** [x in l] for a list of strings. *)
Fixpoint contains (x : string) (l : list string) : bool :=
  match l with
  | [] => false
  | y :: rest => if String.eqb x y then true else contains x rest
  end.

End Py.

(** ** Exceptions and results *)

Inductive exn : Type :=
| HTTPException (status_code : Z) (detail : string)
| ValueError (msg : string)          (* json.JSONDecodeError is a subclass *)
| RuntimeError (msg : string)
| FileNotFoundError (msg : string)
| LibraryError (cls msg : string).   (* HttpError, RefreshError, ... *)

Definition is_ValueError (e : exn) : bool :=
  match e with ValueError _ => true | _ => false end.

(** [str(e)] *)
Definition exn_str (e : exn) : string :=
  match e with
  | HTTPException _ d => d
  | ValueError m | RuntimeError m | FileNotFoundError m => m
  | LibraryError _ m => m
  end.

Inductive result (A : Type) : Type :=
| Ret (a : A)
| Raise (e : exn).
Arguments Ret {A} a.
Arguments Raise {A} e.

(** ** Configuration constants (module level of the source) *)

Definition SCOPES : list string := ["https://www.googleapis.com/auth/drive"].
(** Paths are relative to the directory of the script. *)
Definition CREDENTIALS_FILE : string := "credentials.json".
Definition TOKEN_FILE : string := "token.json".
Definition PLAYGROUND_PATH : list string :=
  ["Personal"; "AI Research"; "OpenClaw Playground"].

(** ** Credentials and the OAuth library *)

Record credentials : Type := {
  token : string;
  refresh_token : option string;
  valid : bool;
  expired : bool
}.

(** The calls the service makes into [google.oauth2] and
    [google_auth_oauthlib]; each may raise. *)
Record OAuth : Type := {
  (* json.loads(blob) then Credentials.from_authorized_user_info(_, SCOPES) *)
  from_authorized_user_info : string -> result credentials;
  (* Credentials.from_authorized_user_file(path, SCOPES), given the content *)
  from_authorized_user_file : string -> result credentials;
  (* creds.refresh(Request()): the credentials object after the call *)
  refresh : credentials -> result credentials;
  (* json.loads(blob), InstalledAppFlow.from_client_config, run_local_server *)
  flow_from_client_config : string -> result credentials;
  (* InstalledAppFlow.from_client_secrets_file(path), run_local_server *)
  flow_from_client_secrets_file : string -> option string -> result credentials;
  (* creds.to_json() *)
  to_json : credentials -> string
}.

(** [build("drive", "v3", credentials=creds)] *)
Record service : Type := { svc_credentials : credentials }.

(** ** The storage provider interface *)

(** A file resource as returned by the API: only [id] is always asked for. *)
Record file_resource : Type := {
  id : string;
  name : option string;
  mimeType : option string;
  modifiedTime : option string;
  size : option string;
  parents : option (list string)
}.

Record list_request : Type := {
  q : string;
  spaces : option string;
  fields : string;
  pageSize : Z;
  pageToken : option string
}.

(** The response dictionary of [files().list]: both keys may be missing. *)
Record list_response : Type := {
  files : option (list file_resource);
  nextPageToken : option string
}.

(** The [body=] dictionary of [update] and [create]: absent keys are [None]. *)
Record file_body : Type := {
  b_name : option string;
  b_mimeType : option string;
  b_parents : option (list string)
}.

(** [MediaIoBaseUpload(io.BytesIO(bytes), mimetype=..., resumable=...)] *)
Record media_upload : Type := {
  m_bytes : string;
  m_mimetype : string;
  m_resumable : bool
}.

(** One call of the client library that reaches the provider. *)
Inductive call : Type :=
| FilesList (r : list_request)
| FilesGet (fileId flds : string)
| FilesGetMedia (fileId : string)
| FilesUpdate (fileId : string) (body : option file_body) (media_body : option media_upload)
| FilesCreate (body : file_body) (media_body : media_upload) (flds : string).

Record Provider (S : Type) : Type := {
  files_list : service -> list_request -> S -> result list_response * S;
  files_get : service -> string -> string -> S -> result file_resource * S;
  (* get_media and the chunked download loop, as one transfer *)
  files_get_media : service -> string -> S -> result string * S;
  files_update : service -> string -> option file_body -> option media_upload ->
                 S -> result unit * S;
  files_create : service -> file_body -> media_upload -> string ->
                 S -> result file_resource * S
}.
Arguments files_list {S} _ _ _ _.
Arguments files_get {S} _ _ _ _ _.
Arguments files_get_media {S} _ _ _ _.
Arguments files_update {S} _ _ _ _ _ _.
Arguments files_create {S} _ _ _ _ _ _.

(** ** The world and the monad of the service *)

Record world (S : Type) : Type := {
  fs : gmap string string;      (* local files: path to content *)
  store : S;                    (* state of the storage provider *)
  calls : list call             (* provider calls made so far, oldest first *)
}.
Arguments fs {S} _.
Arguments store {S} _.
Arguments calls {S} _.

Definition M (S A : Type) : Type := world S -> result A * world S.

Definition ret {S A} (a : A) : M S A := fun w => (Ret a, w).
Definition raise {S A} (e : exn) : M S A := fun w => (Raise e, w).
Definition bind {S A B} (m : M S A) (k : A -> M S B) : M S B :=
  fun w => match m w with
           | (Ret a, w') => k a w'
           | (Raise e, w') => (Raise e, w')
           end.
Definition lift {S A} (r : result A) : M S A := fun w => (r, w).

(** [try: m except Exception as e: h e] *)
Definition try_except {S A} (m : M S A) (h : exn -> M S A) : M S A :=
  fun w => match m w with
           | (Ret a, w') => (Ret a, w')
           | (Raise e, w') => h e w'
           end.

Declare Scope py_scope.
Delimit Scope py_scope with py.
Notation "x <- c ;; k" := (bind c (fun x => k))
  (at level 100, c at next level, right associativity) : py_scope.
Notation "c ;;; k" := (bind c (fun _ => k))
  (at level 100, right associativity) : py_scope.
Open Scope py_scope.

(** ** The service, function by function *)

Section Service.

Context {S : Type}.
Variable P : Provider S.          (* the Drive client library *)
Variable A : OAuth.               (* the OAuth libraries *)
Variable environ : gmap string string.   (* os.environ *)

(** *** Primitive effects *)

(** [Path(p).exists()] *)
Definition path_exists (p : string) : M S bool :=
  fun w => (Ret (bool_decide (is_Some (fs w !! p))), w).

Definition read_text (p : string) : M S (option string) :=
  fun w => (Ret (fs w !! p), w).

(** [with open(p, "w") as f: f.write(text)] *)
Definition write_text (p text : string) : M S unit :=
  fun w => (Ret tt, {| fs := <[p := text]> (fs w); store := store w; calls := calls w |}).

(** Run one provider call and log it. *)
Definition execute {R} (c : call) (op : S -> result R * S) : M S R :=
  fun w => let '(r, s') := op (store w) in
           (r, {| fs := fs w; store := s'; calls := calls w ++ [c] |}).

Definition list_execute (svc : service) (r : list_request) : M S list_response :=
  execute (FilesList r) (files_list P svc r).
Definition get_execute (svc : service) (fileId flds : string) : M S file_resource :=
  execute (FilesGet fileId flds) (files_get P svc fileId flds).
Definition get_media_download (svc : service) (fileId : string) : M S string :=
  execute (FilesGetMedia fileId) (files_get_media P svc fileId).
Definition update_execute (svc : service) (fileId : string)
    (body : option file_body) (media : option media_upload) : M S unit :=
  execute (FilesUpdate fileId body media) (files_update P svc fileId body media).
Definition create_execute (svc : service) (body : file_body)
    (media : media_upload) (flds : string) : M S file_resource :=
  execute (FilesCreate body media flds) (files_create P svc body media flds).

(** *** [get_api_key] *)

Definition get_api_key : result string :=
  let key := Py.strip (Py.or_else (environ !! "DRIVE_PLAYGROUND_API_KEY") "") in
  if negb (Py.truthy key)
  then Raise (RuntimeError "Set DRIVE_PLAYGROUND_API_KEY in the environment.")
  else Ret key.

(** *** [get_drive_service] *)

Definition token_json : string :=
  Py.strip (Py.or_else (environ !! "GOOGLE_DRIVE_TOKEN_JSON") "").

(** Lines 59-70: the stored credentials, if any. *)
Definition load_stored_credentials : M S (option credentials) :=
  if Py.truthy token_json then
    match from_authorized_user_info A token_json with
    | Ret c => ret (Some c)
    | Raise e =>
        if is_ValueError e
        then raise (ValueError "GOOGLE_DRIVE_TOKEN_JSON is set but invalid. Paste the full contents of token.json (from a local OAuth run).")
        else raise e
    end
  else
    ex <- path_exists TOKEN_FILE ;;
    if ex : bool then
      content <- read_text TOKEN_FILE ;;
      c <- lift (from_authorized_user_file A (default "" content)) ;;
      ret (Some c)
    else ret None.

(** Lines 71-72. *)
Definition refresh_if_expired (creds : option credentials) : M S (option credentials) :=
  match creds with
  | Some c =>
      if negb (valid c) && expired c && Py.truthy (Py.or_else (refresh_token c) "")
      then c' <- lift (refresh A c) ;; ret (Some c')
      else ret creds
  | None => ret None
  end.

(** Lines 75-93: the interactive authorization flow. *)
Definition run_interactive_flow : M S credentials :=
  let creds_path := Py.or_else (environ !! "GOOGLE_APPLICATION_CREDENTIALS") CREDENTIALS_FILE in
  let credentials_json := Py.strip (Py.or_else (environ !! "GOOGLE_DRIVE_CREDENTIALS_JSON") "") in
  if Py.truthy credentials_json then
    match flow_from_client_config A credentials_json with
    | Ret c => ret c
    | Raise e =>
        if is_ValueError e
        then raise (ValueError "GOOGLE_DRIVE_CREDENTIALS_JSON is set but invalid. Paste the full contents of credentials.json.")
        else raise e
    end
  else
    ex <- path_exists creds_path ;;
    if Py.truthy creds_path && ex then
      content <- read_text creds_path ;;
      lift (flow_from_client_secrets_file A creds_path content)
    else
      raise (FileNotFoundError "Google OAuth credentials not found. For Railway: set GOOGLE_DRIVE_TOKEN_JSON (full token.json from a local OAuth run). For local first run: save credentials.json here or set GOOGLE_DRIVE_CREDENTIALS_JSON.").

(** Lines 94-96. *)
Definition persist_token (creds : credentials) : M S unit :=
  ex <- path_exists TOKEN_FILE ;;
  if negb (Py.truthy token_json) && negb ex
  then write_text TOKEN_FILE (to_json A creds)
  else ret tt.

(** [creds and creds.valid], the negation of the test of line 73. *)
Definition usable (creds : option credentials) : bool :=
  match creds with Some c => valid c | None => false end.

Definition get_drive_service : M S service :=
  creds <- load_stored_credentials ;;
  creds <- refresh_if_expired creds ;;
  creds <- match creds with
           | Some c =>
               if valid c then ret c
               else (c' <- run_interactive_flow ;; persist_token c' ;;; ret c')
           | None => (c' <- run_interactive_flow ;; persist_token c' ;;; ret c')
           end ;;
  ret {| svc_credentials := creds |}.

(** *** [get_playground_folder_id] *)

(** The query of line 110. *)
Definition folder_query (parent_id name : string) : string :=
  "'" ++ parent_id ++ "' in parents and name = '" ++ name
      ++ "' and mimeType = 'application/vnd.google-apps.folder' and trashed = false".

Definition folder_not_found (name : string) : string :=
  "Folder not found: " ++ Py.join " / " PLAYGROUND_PATH ++ ". "
    ++ "Missing after: " ++ name
    ++ ". Create the folder in Drive or set DRIVE_PLAYGROUND_FOLDER_ID to the folder ID.".

(** The [for name in PLAYGROUND_PATH] loop, from a given [parent_id]. *)
Fixpoint walk (svc : service) (parent_id : string) (names : list string) : M S string :=
  match names with
  | [] => ret parent_id
  | name :: rest =>
      result <- list_execute svc
                  {| q := folder_query parent_id name; spaces := Some "drive";
                     fields := "files(id, name)"; pageSize := 1; pageToken := None |} ;;
      match default [] (files result) with
      | [] => raise (ValueError (folder_not_found name))
      | f :: _ => walk svc (id f) rest
      end
  end.

Definition get_playground_folder_id (svc : service) : M S string :=
  let folder_id := Py.strip (Py.or_else (environ !! "DRIVE_PLAYGROUND_FOLDER_ID") "") in
  if Py.truthy folder_id then ret folder_id
  else walk svc "root" PLAYGROUND_PATH.

(** *** [require_api_key] *)

Definition bearer_of (authorization : option string) : string :=
  Py.removeprefix "Bearer " (Py.strip (Py.or_else authorization "")).

(** [x_api_key or bearer] *)
Definition candidate (x_api_key authorization : option string) : string :=
  Py.or_else x_api_key (bearer_of authorization).

Definition require_api_key (x_api_key authorization : option string) : M S unit :=
  key <- lift get_api_key ;;
  if negb (String.eqb (candidate x_api_key authorization) key)
  then raise (HTTPException 401 "Invalid or missing API key")
  else ret tt.

(** *** The handlers *)

(** [str.encode("utf-8")] and [bytes.decode("utf-8", errors="replace")]. *)
Variable encode_utf8 : string -> string.
Variable decode_utf8_replace : string -> string.

Record list_result : Type := {
  lr_files : list file_resource;
  lr_nextPageToken : option string
}.

Record write_result : Type := { w_id : string; w_action : string }.

Record WriteBody : Type := { wb_name : string; wb_content : string; wb_mime_type : string }.

Definition list_files (x_api_key authorization page_token : option string)
    (page_size : Z) : M S list_result :=
  require_api_key x_api_key authorization ;;;
  svc <- get_drive_service ;;
  folder_id <- get_playground_folder_id svc ;;
  let q := "'" ++ folder_id ++ "' in parents and trashed = false" in
  result <- list_execute svc
              {| q := q; spaces := Some "drive";
                 fields := "nextPageToken, files(id, name, mimeType, modifiedTime, size)";
                 pageSize := page_size;
                 pageToken := Some (Py.or_else page_token "") |} ;;
  ret {| lr_files := default [] (files result);
         lr_nextPageToken := nextPageToken result |}.

Definition read_file (file_id : string) (x_api_key authorization : option string)
    : M S string :=
  require_api_key x_api_key authorization ;;;
  svc <- get_drive_service ;;
  folder_id <- get_playground_folder_id svc ;;
  meta <- get_execute svc file_id "id, name, mimeType, parents" ;;
  let parents := default [] (parents meta) in
  if negb (Py.contains folder_id parents) then
    raise (HTTPException 403
      "File is not a direct child of the Playground folder. Use /list to get file IDs.")
  else
    try_except
      (buf <- get_media_download svc file_id ;;
       ret (decode_utf8_replace buf))
      (fun e => raise (HTTPException 404 (exn_str e))).

(** The query of line 224. *)
Definition existing_query (folder_id name : string) : string :=
  "'" ++ folder_id ++ "' in parents and name = '" ++ name ++ "' and trashed = false".

Definition write_file (body : WriteBody) (x_api_key authorization : option string)
    : M S write_result :=
  require_api_key x_api_key authorization ;;;
  svc <- get_drive_service ;;
  folder_id <- get_playground_folder_id svc ;;
  existing <- list_execute svc
                {| q := existing_query folder_id (wb_name body); spaces := None;
                   fields := "files(id)"; pageSize := 1; pageToken := None |} ;;
  let files := default [] (files existing) in
  let meta := {| b_name := Some (wb_name body); b_mimeType := Some (wb_mime_type body);
                 b_parents := Some [folder_id] |} in
  let media := {| m_bytes := encode_utf8 (wb_content body);
                  m_mimetype := wb_mime_type body; m_resumable := false |} in
  match files with
  | f :: _ =>
      let file_id := id f in
      update_execute svc file_id
        (Some {| b_name := Some (wb_name body); b_mimeType := None; b_parents := None |})
        None ;;;
      update_execute svc file_id None (Some media) ;;;
      ret {| w_id := file_id; w_action := "updated" |}
  | [] =>
      created <- create_execute svc meta media "id" ;;
      ret {| w_id := id created; w_action := "created" |}
  end.

(** *** Routing: what FastAPI does around the handlers *)

(** The JSON body of [POST /write] before validation: a missing key is [None]. *)
Record write_json : Type := {
  j_name : option string;
  j_content : option string;
  j_mime_type : option string
}.

Inductive request : Type :=
| GET_health
| GET_list (x_api_key authorization page_token : option string) (page_size : option Z)
| GET_files_content (file_id : string) (x_api_key authorization : option string)
| POST_write (x_api_key authorization : option string) (body : write_json).

(** [page_size: int = Query(50, ge=1, le=100)] *)
Definition validate_page_size (page_size : option Z) : option Z :=
  match page_size with
  | None => Some 50%Z
  | Some n => if (1 <=? n)%Z && (n <=? 100)%Z then Some n else None
  end.

(** [class WriteBody(BaseModel)]: [name] and [content] are required,
    [mime_type] defaults to ["text/plain"]. *)
Definition validate_body (j : write_json) : option WriteBody :=
  match j_name j, j_content j with
  | Some n, Some c =>
      Some {| wb_name := n; wb_content := c;
              wb_mime_type := default "text/plain" (j_mime_type j) |}
  | _, _ => None
  end.

Inductive content : Type :=
| HealthJSON (status : string)
| ListJSON (r : list_result)
| PlainTextResponse (text : string)
| WriteJSON (r : write_result).

Inductive response : Type :=
| OK (body : content)                          (* 200 *)
| ErrorResponse (status_code : Z) (detail : string)   (* a raised HTTPException *)
| UnprocessableEntity                          (* 422: request validation failed *)
| InternalServerError (e : exn).               (* 500: any other exception *)

Definition status_of (r : response) : Z :=
  match r with
  | OK _ => 200
  | ErrorResponse s _ => s
  | UnprocessableEntity => 422
  | InternalServerError _ => 500
  end.

(** The outcome of a handler as an HTTP response. *)
Definition respond {R} (wrap : R -> content) (m : M S R) : world S -> response * world S :=
  fun w => match m w with
           | (Ret a, w') => (OK (wrap a), w')
           | (Raise (HTTPException s d), w') => (ErrorResponse s d, w')
           | (Raise e, w') => (InternalServerError e, w')
           end.

Definition health : content := HealthJSON "ok".

(** One request through the application: validation of the declared
    parameters first, then the handler. *)
Definition app (r : request) : world S -> response * world S :=
  match r with
  | GET_health => fun w => (OK health, w)
  | GET_list x_api_key authorization page_token page_size =>
      match validate_page_size page_size with
      | Some n => respond ListJSON (list_files x_api_key authorization page_token n)
      | None => fun w => (UnprocessableEntity, w)
      end
  | GET_files_content file_id x_api_key authorization =>
      respond PlainTextResponse (read_file file_id x_api_key authorization)
  | POST_write x_api_key authorization body =>
      match validate_body body with
      | Some b => respond WriteJSON (write_file b x_api_key authorization)
      | None => fun w => (UnprocessableEntity, w)
      end
  end.

(** The running process: importing the module only builds the application
    object (nothing is read from the environment), then requests are
    handled one after the other. *)
Fixpoint serve (rs : list request) (w : world S) : list response * world S :=
  match rs with
  | [] => ([], w)
  | r :: rest =>
      let '(resp, w') := app r w in
      let '(resps, w'') := serve rest w' in
      (resp :: resps, w'')
  end.

End Service.

(** ** A reference storage provider

    A deterministic model of the part of the Drive v3 API the service talks
    to: a list of files, the search-query syntax the service emits
    (single-quoted literals in which a quote or a backslash must be escaped by
    a backslash, terms joined by [and]), first-page-first listing, and
    metadata and content access by identifier.  The model keeps no clock and
    no size accounting: [modifiedTime] and [size] are never reported. *)

Module Drive.

Record drive_file : Type := {
  f_id : string;
  f_name : string;
  f_mimeType : string;
  f_parents : list string;
  f_trashed : bool;
  f_content : string
}.

Abbreviation state := (list drive_file).

(** *** The query language *)

Inductive token : Type :=
| TLit (s : string)
| TWord (s : string).

Inductive mode : Type :=
| InWord (acc : string)
| InLit (acc : string).

Definition flush (acc : string) : list token :=
  if Py.truthy acc then [TWord acc] else [].

Definition snoc (acc : string) (c : ascii) : string := acc ++ String c EmptyString.

Definition is_quote (c : ascii) : bool := Ascii.eqb c "'"%char.
Definition is_backslash (c : ascii) : bool := Ascii.eqb c "\"%char.

Fixpoint lex (m : mode) (s : string) : option (list token) :=
  match s with
  | EmptyString =>
      match m with
      | InWord acc => Some (flush acc)
      | InLit _ => None                      (* unterminated literal *)
      end
  | String c r =>
      match m with
      | InWord acc =>
          if Ascii.eqb c " "%char then List.app (flush acc) <$> lex (InWord EmptyString) r
          else if is_quote c then List.app (flush acc) <$> lex (InLit EmptyString) r
          else lex (InWord (snoc acc c)) r
      | InLit acc =>
          if is_quote c then cons (TLit acc) <$> lex (InWord EmptyString) r
          else if is_backslash c then
            match r with
            | String d r' =>
                if is_quote d || is_backslash d then lex (InLit (snoc acc d)) r' else None
            | EmptyString => None
            end
          else lex (InLit (snoc acc c)) r
      end
  end.

Inductive term : Type :=
| InParents (parent : string)
| NameIs (n : string)
| MimeTypeIs (m : string)
| TrashedIs (b : bool).

Definition parse_term (a b c : token) : option term :=
  match a, b, c with
  | TLit p, TWord w1, TWord w2 =>
      if String.eqb w1 "in" && String.eqb w2 "parents" then Some (InParents p) else None
  | TWord w1, TWord w2, TLit v =>
      if String.eqb w2 "=" then
        if String.eqb w1 "name" then Some (NameIs v)
        else if String.eqb w1 "mimeType" then Some (MimeTypeIs v)
        else None
      else None
  | TWord w1, TWord w2, TWord w3 =>
      if String.eqb w1 "trashed" && String.eqb w2 "=" then
        if String.eqb w3 "false" then Some (TrashedIs false)
        else if String.eqb w3 "true" then Some (TrashedIs true)
        else None
      else None
  | _, _, _ => None
  end.

Fixpoint parse_terms (ts : list token) : option (list term) :=
  match ts with
  | a :: b :: c :: rest =>
      match parse_term a b c with
      | Some t =>
          match rest with
          | [] => Some [t]
          | TWord w :: rest' =>
              if String.eqb w "and" then cons t <$> parse_terms rest' else None
          | TLit _ :: _ => None
          end
      | None => None
      end
  | _ => None
  end.

Definition parse_query (q : string) : option (list term) :=
  ts ← lex (InWord EmptyString) q; parse_terms ts.

Definition satisfies (f : drive_file) (t : term) : bool :=
  match t with
  | InParents p => Py.contains p (f_parents f)
  | NameIs n => String.eqb (f_name f) n
  | MimeTypeIs m => String.eqb (f_mimeType f) m
  | TrashedIs b => Bool.eqb (f_trashed f) b
  end.

Definition matches (ts : list term) (f : drive_file) : bool :=
  forallb (satisfies f) ts.

(** *** Field masks and resources *)

(** Whether the field mask mentions the field. *)
Fixpoint mentions (field mask : string) : bool :=
  match mask with
  | EmptyString => negb (Py.truthy field)
  | String _ r => Py.startswith field mask || mentions field r
  end.

Definition resource (flds : string) (f : drive_file) : file_resource :=
  {| id := f_id f;
     name := if mentions "name" flds then Some (f_name f) else None;
     mimeType := if mentions "mimeType" flds then Some (f_mimeType f) else None;
     modifiedTime := None;
     size := None;
     parents := if mentions "parents" flds then Some (f_parents f) else None |}.

(** *** Page tokens: the offset of the next page, in unary *)

Fixpoint token_of (n : nat) : string :=
  match n with O => EmptyString | Datatypes.S k => String "+"%char (token_of k) end.

Fixpoint offset_of (t : string) : option nat :=
  match t with
  | EmptyString => Some O
  | String c r => if Ascii.eqb c "+"%char then Datatypes.S <$> offset_of r else None
  end.

(** *** The operations *)

Definition HttpError (status reason : string) : exn :=
  LibraryError "HttpError" (status ++ ": " ++ reason).

Definition list (_ : service) (r : list_request) (st : state)
    : result list_response * state :=
  match parse_query (q r), offset_of (default EmptyString (pageToken r)) with
  | Some ts, Some off =>
      if (1 <=? pageSize r)%Z && (pageSize r <=? 1000)%Z then
        let found := skipn off (filter (fun f => matches ts f = true) st) in
        let n := Z.to_nat (pageSize r) in
        (Ret {| files := Some (resource (fields r) <$> firstn n found);
                nextPageToken :=
                  if (n <? length found)%nat then Some (token_of (off + n)) else None |}, st)
      else (Raise (HttpError "400" "Invalid value for pageSize"), st)
  | None, _ => (Raise (HttpError "400" "Invalid Value: q"), st)
  | _, None => (Raise (HttpError "400" "Invalid Value: pageToken"), st)
  end.

Definition lookup (fileId : string) (st : state) : option drive_file :=
  List.find (fun f => String.eqb (f_id f) fileId) st.

Definition get (_ : service) (fileId flds : string) (st : state)
    : result file_resource * state :=
  match lookup fileId st with
  | Some f => (Ret (resource flds f), st)
  | None => (Raise (HttpError "404" ("File not found: " ++ fileId)), st)
  end.

Definition get_media (_ : service) (fileId : string) (st : state)
    : result string * state :=
  match lookup fileId st with
  | Some f => (Ret (f_content f), st)
  | None => (Raise (HttpError "404" ("File not found: " ++ fileId)), st)
  end.

(** The file after an update: only the keys that are sent change. *)
Definition patch (body : option file_body) (media : option media_upload)
    (f : drive_file) : drive_file :=
  {| f_id := f_id f;
     f_name := default (f_name f) (body ≫= b_name);
     f_mimeType :=
       default (default (f_mimeType f) (m_mimetype <$> media)) (body ≫= b_mimeType);
     f_parents := default (f_parents f) (body ≫= b_parents);
     f_trashed := f_trashed f;
     f_content := default (f_content f) (m_bytes <$> media) |}.

Definition update (_ : service) (fileId : string) (body : option file_body)
    (media : option media_upload) (st : state) : result unit * state :=
  match lookup fileId st with
  | Some _ =>
      (Ret tt,
       List.map (fun f => if String.eqb (f_id f) fileId then patch body media f else f) st)
  | None => (Raise (HttpError "404" ("File not found: " ++ fileId)), st)
  end.

Fixpoint longest (st : state) : nat :=
  match st with
  | [] => O
  | f :: rest => Nat.max (String.length (f_id f)) (longest rest)
  end.

(** An identifier no file has yet: longer than all of them. *)
Definition fresh_id (st : state) : string := token_of (Datatypes.S (longest st)).

(** The number of "/" in a content type. *)
Fixpoint slashes (s : string) : nat :=
  match s with
  | EmptyString => O
  | String c r => ((if Ascii.eqb c "/"%char then 1 else 0) + slashes r)%nat
  end.

(** A content type of the form type/subtype: exactly one "/". *)
Definition single_slash (s : string) : bool := Nat.eqb (slashes s) 1.

(** A create with metadata and media is sent as one multipart message, for
    which the client library splits the content type of the media at "/": a
    content type without exactly one "/" makes the library raise TypeError
    before anything is sent (the text of its message is not modelled). *)
Definition create (_ : service) (body : file_body) (media : media_upload)
    (flds : string) (st : state) : result file_resource * state :=
  if single_slash (m_mimetype media) then
    let f := {| f_id := fresh_id st;
                f_name := default "Untitled" (b_name body);
                f_mimeType := default (m_mimetype media) (b_mimeType body);
                f_parents := default ["root"] (b_parents body);
                f_trashed := false;
                f_content := m_bytes media |} in
    (Ret (resource flds f), (st ++ [f])%list)
  else
    (Raise (LibraryError "TypeError" "MIMEBase.__init__() got the wrong number of positional arguments"),
     st).

(** A string that can stand in a query literal as it is: it holds neither a
    quote nor a backslash. *)
Fixpoint plain (s : string) : bool :=
  match s with
  | EmptyString => true
  | String c r => negb (is_quote c || is_backslash c) && plain r
  end.


Definition provider : Provider state :=
  {| files_list := list; files_get := get; files_get_media := get_media;
     files_update := update; files_create := create |}.

End Drive.

(** ** Concrete configurations used to exercise the model *)

Module Fixture.

Definition fresh : credentials :=
  {| token := "fresh"; refresh_token := Some "r"; valid := true; expired := false |}.

(** An expired token without a refresh token. *)
Definition stale : credentials :=
  {| token := "stale"; refresh_token := None; valid := false; expired := true |}.

(** Stored tokens are stale; the interactive flow yields a fresh one. *)
Definition oauth : OAuth :=
  {| from_authorized_user_info := fun _ => Ret fresh;
     from_authorized_user_file := fun _ => Ret stale;
     refresh := fun c => Ret c;
     flow_from_client_config := fun _ => Ret fresh;
     flow_from_client_secrets_file := fun _ _ => Ret fresh;
     to_json := token |}.

(** A deployment: secret, token blob, no explicit folder identifier. *)
Definition env : gmap string string :=
  <["DRIVE_PLAYGROUND_API_KEY" := "k"]> (<["GOOGLE_DRIVE_TOKEN_JSON" := "{}"]> ∅).

(** The same with an explicit folder identifier. *)
Definition env_folder : gmap string string :=
  <["DRIVE_PLAYGROUND_FOLDER_ID" := " F "]> env.

(** A local run: the secret only, credentials come from the files. *)
Definition env_local : gmap string string :=
  <["DRIVE_PLAYGROUND_API_KEY" := "k"]> ∅.

(** The same as [env] without the secret. *)
Definition env_no_key : gmap string string :=
  <["GOOGLE_DRIVE_TOKEN_JSON" := "{}"]> ∅.

Definition folder_type : string := "application/vnd.google-apps.folder".

Definition file (i n m : string) (p : list string) : Drive.drive_file :=
  {| Drive.f_id := i; Drive.f_name := n; Drive.f_mimeType := m;
     Drive.f_parents := p; Drive.f_trashed := false; Drive.f_content := "c" |}.

(** My Drive / Personal / AI Research / OpenClaw Playground, with two files
    in the playground and one next to it. *)
Definition drive : Drive.state :=
  [ file "p1" "Personal" folder_type ["root"];
    file "a1" "AI Research" folder_type ["p1"];
    file "F" "OpenClaw Playground" folder_type ["a1"];
    file "x" "it's" "text/plain" ["F"];
    file "y" "note.txt" "text/plain" ["F"];
    file "z" "other.txt" "text/plain" ["a1"] ].

Definition world0 : world Drive.state := {| fs := ∅; store := drive; calls := [] |}.

(** A drive in which the path does not exist. *)
Definition empty_world : world Drive.state := {| fs := ∅; store := []; calls := [] |}.

(** A local run: a stale token file and a client-secret file on disk. *)
Definition local_world : world Drive.state :=
  {| fs := <[TOKEN_FILE := "stale"]> (<[CREDENTIALS_FILE := "{}"]> ∅);
     store := drive; calls := [] |}.

(** A first local run: only the client-secret file. *)
Definition first_run_world : world Drive.state :=
  {| fs := <[CREDENTIALS_FILE := "{}"]> ∅; store := drive; calls := [] |}.

(** Strings are bytes in these runs. *)
Definition run (e : gmap string string) (r : request) (w : world Drive.state)
    : response * world Drive.state :=
  app Drive.provider oauth e (fun s => s) (fun s => s) r w.

End Fixture.

(** ** Which requests are gated, and with which headers *)

Definition headers_of (r : request) : option (option string * option string) :=
  match r with
  | GET_health => None
  | GET_list x a _ _ => Some (x, a)
  | GET_files_content _ x a => Some (x, a)
  | POST_write x a _ => Some (x, a)
  end.

(** Whether FastAPI accepts the declared parameters and body of the request. *)
Definition validates (r : request) : bool :=
  match r with
  | GET_health => true
  | GET_list _ _ _ page_size => bool_decide (is_Some (validate_page_size page_size))
  | GET_files_content _ _ _ => true
  | POST_write _ _ body => bool_decide (is_Some (validate_body body))
  end.

Definition is_list_call (c : call) : Prop := exists r, c = FilesList r.
Definition is_download (c : call) : Prop := exists fileId, c = FilesGetMedia fileId.

(** The parents a provider call sends, if it sends any. *)
Definition sent_parents (c : call) : option (list string) :=
  match c with
  | FilesUpdate _ body _ => body ≫= b_parents
  | FilesCreate body _ _ => b_parents body
  | _ => None
  end.

(** The walk of the folder resolver reaches [name] and finds no match there. *)
Inductive misses {S : Type} (P : Provider S) (svc : service)
    : string -> list string -> S -> string -> Prop :=
| misses_here parent name rest s resp s' :
    files_list P svc
      {| q := folder_query parent name; spaces := Some "drive";
         fields := "files(id, name)"; pageSize := 1; pageToken := None |} s = (Ret resp, s') ->
    default [] (files resp) = [] ->
    misses P svc parent (name :: rest) s name
| misses_later parent n rest s resp s' f fs' name :
    files_list P svc
      {| q := folder_query parent n; spaces := Some "drive";
         fields := "files(id, name)"; pageSize := 1; pageToken := None |} s = (Ret resp, s') ->
    default [] (files resp) = f :: fs' ->
    misses P svc (id f) rest s' name ->
    misses P svc parent (n :: rest) s name.

(** ** Vocabulary for the further properties *)

(** Only whitespace: what [strip] removes entirely. *)
Fixpoint all_space (s : string) : bool :=
  match s with
  | EmptyString => true
  | String c r => Py.is_space c && all_space r
  end.

(** A provider call that only reads. *)
Definition is_read_call (c : call) : Prop :=
  match c with
  | FilesList _ | FilesGet _ _ | FilesGetMedia _ => True
  | FilesUpdate _ _ _ | FilesCreate _ _ _ => False
  end.


(** A non-trashed folder named [n] directly under [parent]. *)
Definition folder_child (parent n : string) (f : Drive.drive_file) : bool :=
  Py.contains parent (Drive.f_parents f) && String.eqb (Drive.f_name f) n
  && String.eqb (Drive.f_mimeType f) "application/vnd.google-apps.folder"
  && negb (Drive.f_trashed f).

(** A non-trashed direct child of [folder_id]. *)
Definition in_scope (folder_id : string) (f : Drive.drive_file) : bool :=
  Py.contains folder_id (Drive.f_parents f) && negb (Drive.f_trashed f).

(** The query of line 158. *)
Definition scope_query (folder_id : string) : string :=
  "'" ++ folder_id ++ "' in parents and trashed = false".

(** Every run of [m] relates the world before to the world after. *)
Definition preserves {S R : Type} (Rel : world S -> world S -> Prop) (m : M S R) : Prop :=
  forall w r w', m w = (r, w') -> Rel w w'.

(** The provider calls made between two worlds are reads. *)
Definition only_reads {S : Type} (w w' : world S) : Prop :=
  exists cs, calls w' = (calls w ++ cs)%list /\ Forall is_read_call cs.

(** The provider holds the same state in both worlds. *)
Definition same_store {S : Type} (w w' : world S) : Prop := store w' = store w.

(** Further configurations. *)
Module Cases.

(** An expired token that can be refreshed. *)
Definition renewable : credentials :=
  {| token := "old"; refresh_token := Some "r"; valid := false; expired := true |}.

(** The token blob does not parse. *)
Definition oauth_bad_blob : OAuth :=
  {| from_authorized_user_info := fun _ => Raise (ValueError "Expecting value");
     from_authorized_user_file := fun _ => Ret Fixture.stale;
     refresh := fun c => Ret c;
     flow_from_client_config := fun _ => Ret Fixture.fresh;
     flow_from_client_secrets_file := fun _ _ => Ret Fixture.fresh;
     to_json := token |}.

(** The stored token is expired and the refresh succeeds. *)
Definition oauth_refresh : OAuth :=
  {| from_authorized_user_info := fun _ => Ret renewable;
     from_authorized_user_file := fun _ => Ret renewable;
     refresh := fun _ => Ret Fixture.fresh;
     flow_from_client_config := fun _ => Raise (LibraryError "OSError" "no browser");
     flow_from_client_secrets_file := fun _ _ => Raise (LibraryError "OSError" "no browser");
     to_json := token |}.

(** The reference provider with a failing download. *)
Definition no_download : Provider (list Drive.drive_file) :=
  {| files_list := Drive.list; files_get := Drive.get;
     files_get_media := fun _ _ st => (Raise (Drive.HttpError "500" "Backend Error"), st);
     files_update := Drive.update; files_create := Drive.create |}.

(** The reference provider with a failing media upload on update. *)
Definition no_upload : Provider (list Drive.drive_file) :=
  {| files_list := Drive.list; files_get := Drive.get; files_get_media := Drive.get_media;
     files_update := fun svc i b m st =>
       match m with
       | Some _ => (Raise (Drive.HttpError "500" "Backend Error"), st)
       | None => Drive.update svc i b m st
       end;
     files_create := Drive.create |}.

(** A deployment with a padded secret. *)
Definition env_padded : gmap string string :=
  <["DRIVE_PLAYGROUND_API_KEY" := "  k "]> Fixture.env.

(** An empty machine: no environment, no local files. *)
Definition bare_world : world (list Drive.drive_file) :=
  {| fs := ∅; store := Fixture.drive; calls := [] |}.

Definition svc : service := {| svc_credentials := Fixture.fresh |}.

End Cases.

(** ** Facts about the string primitives *)

Lemma contains_elem_of (x : string) (l : list string) :
  Py.contains x l = true <-> x ∈ l.
Proof.
  induction l as [|y l IH]; simpl.
  - split; [discriminate | intros H; inversion H].
  - destruct (String.eqb_spec x y) as [->|Hne].
    + split; [intros _; left | reflexivity].
    + rewrite IH. split; [intros H; by right | intros H].
      inversion H; subst; [congruence | assumption].
Qed.

Lemma contains_not_elem_of (x : string) (l : list string) :
  x ∉ l -> Py.contains x l = false.
Proof.
  intros H. destruct (Py.contains x l) eqn:E; [|reflexivity].
  apply contains_elem_of in E. contradiction.
Qed.

Lemma truthy_false (s : string) : Py.truthy s = false <-> s = "".
Proof. destruct s; simpl; split; congruence. Qed.

Lemma rstrip_cons (c : ascii) (r : string) :
  Py.rstrip r <> "" -> Py.rstrip (String c r) = String c (Py.rstrip r).
Proof. simpl. destruct (Py.rstrip r); congruence. Qed.

Lemma rstrip_idem (s : string) : Py.rstrip (Py.rstrip s) = Py.rstrip s.
Proof.
  induction s as [|c r IH]; [reflexivity|].
  simpl. destruct (Py.rstrip r) as [|d r'] eqn:E.
  - destruct (Py.is_space c) eqn:Ec; [reflexivity|]. simpl. by rewrite Ec.
  - rewrite rstrip_cons; rewrite IH; congruence.
Qed.

Lemma rstrip_app (p k : string) :
  Py.rstrip k <> "" -> Py.rstrip (p ++ k) = p ++ Py.rstrip k.
Proof.
  intros Hk. induction p as [|c p IH]; [reflexivity|].
  change (String c p ++ k) with (String c (p ++ k)).
  rewrite rstrip_cons; rewrite IH; [reflexivity|].
  destruct p; simpl; [assumption | discriminate].
Qed.

Lemma strip_fixed (s : string) : Py.rstrip (Py.strip s) = Py.strip s.
Proof. apply rstrip_idem. Qed.

(** A bearer header built from a stripped, non-empty secret yields the secret. *)
Lemma bearer_of_secret (s : string) :
  Py.strip s <> "" -> bearer_of (Some ("Bearer " ++ Py.strip s)) = Py.strip s.
Proof.
  intros Hne. unfold bearer_of.
  assert (Py.strip ("Bearer " ++ Py.strip s) = "Bearer " ++ Py.strip s) as E.
  { unfold Py.strip at 1.
    change (Py.lstrip ("Bearer " ++ Py.strip s)) with ("Bearer " ++ Py.strip s).
    rewrite rstrip_app; rewrite strip_fixed; [reflexivity | assumption]. }
  change (Py.or_else (Some ("Bearer " ++ Py.strip s)) "")
    with ("Bearer " ++ Py.strip s).
  rewrite E. reflexivity.
Qed.

(** ** What each step of a request may touch *)

Section Frames.

Context {S : Type}.
Variable P : Provider S.
Variable A : OAuth.
Variable environ : gmap string string.

Lemma get_api_key_stripped (key : string) :
  get_api_key environ = Ret key ->
  key <> "" /\ exists s, key = Py.strip s.
Proof.
  unfold get_api_key. intros H.
  destruct (Py.strip (Py.or_else (environ !! "DRIVE_PLAYGROUND_API_KEY") "")) eqn:E;
    simpl in H; [discriminate|].
  injection H as <-. split; [discriminate | eauto].
Qed.

Lemma require_api_key_spec (x_api_key authorization : option string) (w : world S) :
  require_api_key environ x_api_key authorization w =
    (match get_api_key environ with
     | Ret key =>
         if String.eqb (candidate x_api_key authorization) key then Ret tt
         else Raise (HTTPException 401 "Invalid or missing API key")
     | Raise e => Raise e
     end, w).
Proof.
  unfold require_api_key, bind, lift, raise, ret.
  destruct (get_api_key environ); [|reflexivity].
  destruct (String.eqb _ _); reflexivity.
Qed.

Lemma load_stored_credentials_frame (w w' : world S) r :
  load_stored_credentials A environ w = (r, w') -> w' = w.
Proof.
  unfold load_stored_credentials, path_exists, read_text, bind, ret, raise, lift.
  intros H. repeat (case_match; simplify_eq; simpl in * ); auto.
Qed.

Lemma refresh_if_expired_frame (c : option credentials) (w w' : world S) r :
  refresh_if_expired A c w = (r, w') -> w' = w.
Proof.
  unfold refresh_if_expired, bind, ret, raise, lift.
  intros H. repeat (case_match; simplify_eq; simpl in * ); auto.
Qed.

Lemma run_interactive_flow_frame (w w' : world S) r :
  run_interactive_flow A environ w = (r, w') -> w' = w.
Proof.
  unfold run_interactive_flow, path_exists, read_text, bind, ret, raise, lift.
  intros H. repeat (case_match; simplify_eq; simpl in * ); auto.
Qed.

(** Building the client never talks to the storage provider. *)
Lemma get_drive_service_frame (w w' : world S) r :
  get_drive_service A environ w = (r, w') ->
  store w' = store w /\ calls w' = calls w.
Proof.
  unfold get_drive_service, load_stored_credentials, refresh_if_expired,
    run_interactive_flow, persist_token, path_exists, read_text, write_text,
    bind, ret, raise, lift.
  intros H. repeat (case_match; simplify_eq; simpl in * ); auto.
Qed.

(** The walk only lists, and leaves the local files alone. *)
Lemma walk_frame (svc : service) (names : list string) :
  forall (parent : string) (w w' : world S) r,
    walk P svc parent names w = (r, w') ->
    fs w' = fs w /\ exists cs, calls w' = (calls w ++ cs)%list /\ Forall is_list_call cs.
Proof.
  induction names as [|n rest IH]; intros parent w w' r H; simpl in H.
  - unfold ret in H. simplify_eq. split; [reflexivity|].
    exists []. by rewrite app_nil_r.
  - unfold bind, list_execute, execute in H.
    destruct (files_list P svc _ (store w)) as [[resp|e] s'] eqn:E.
    + destruct (default [] (files resp)) as [|f fs'].
      * unfold raise in H. simplify_eq. simpl. split; [reflexivity|].
        eexists [_]. split; [reflexivity|]. repeat constructor. eexists; reflexivity.
      * apply IH in H as [Hfs (cs & Hcs & Hall)]. simpl in *.
        split; [assumption|].
        eexists (_ :: cs). rewrite Hcs, <- app_assoc. split; [reflexivity|].
        constructor; [eexists; reflexivity | assumption].
    + simplify_eq. simpl. split; [reflexivity|].
      eexists [_]. split; [reflexivity|]. repeat constructor. eexists; reflexivity.
Qed.

Lemma get_playground_folder_id_frame (svc : service) (w w' : world S) r :
  get_playground_folder_id P environ svc w = (r, w') ->
  fs w' = fs w /\ exists cs, calls w' = (calls w ++ cs)%list /\ Forall is_list_call cs.
Proof.
  unfold get_playground_folder_id. case_match.
  - unfold ret. intros ?; simplify_eq. split; [reflexivity|].
    exists []. by rewrite app_nil_r.
  - apply walk_frame.
Qed.

Lemma walk_misses (svc : service) (parent : string) (names : list string)
    (s : S) (name : string) :
  misses P svc parent names s name ->
  forall w : world S, store w = s ->
    exists w', walk P svc parent names w = (Raise (ValueError (folder_not_found name)), w').
Proof.
  induction 1 as [parent name rest s resp s' Hl Hnone
                 |parent n rest s resp s' f fs' name Hl Hsome _ IH];
    intros w Hw; simpl; unfold bind, list_execute, execute; rewrite Hw, Hl.
  - rewrite Hnone. unfold raise. eauto.
  - rewrite Hsome. apply IH. reflexivity.
Qed.

Lemma walk_store_only (svc : service) (names : list string) :
  forall (parent : string) (w1 w2 : world S),
    store w1 = store w2 ->
    fst (walk P svc parent names w1) = fst (walk P svc parent names w2)
    /\ store (snd (walk P svc parent names w1)) = store (snd (walk P svc parent names w2)).
Proof.
  induction names as [|n rest IH]; intros parent w1 w2 Hs; simpl.
  - split; [reflexivity | assumption].
  - unfold bind, list_execute, execute. rewrite Hs.
    destruct (files_list P svc _ (store w2)) as [[resp|e] s'].
    + destruct (default [] (files resp)) as [|f fs'].
      * split; reflexivity.
      * apply IH. reflexivity.
    + split; reflexivity.
Qed.

(** [write_file] up to and including its lookup by name. *)
Lemma write_file_after_lookup (encode_utf8 : string -> string)
    (body : WriteBody) (x_api_key authorization : option string)
    (key folder_id : string) (svc : service) (existing : list_response)
    (w w1 w2 : world S) (s3 : S) :
  get_api_key environ = Ret key ->
  candidate x_api_key authorization = key ->
  get_drive_service A environ w = (Ret svc, w1) ->
  get_playground_folder_id P environ svc w1 = (Ret folder_id, w2) ->
  let lookup :=
    {| q := existing_query folder_id (wb_name body); spaces := None;
       fields := "files(id)"; pageSize := 1; pageToken := None |} in
  files_list P svc lookup (store w2) = (Ret existing, s3) ->
  let media :=
    {| m_bytes := encode_utf8 (wb_content body); m_mimetype := wb_mime_type body;
       m_resumable := false |} in
  write_file P A environ encode_utf8 body x_api_key authorization w =
    match default [] (files existing) with
    | f :: _ =>
        bind (update_execute P svc (id f)
                (Some {| b_name := Some (wb_name body); b_mimeType := None;
                         b_parents := None |}) None)
          (fun _ => bind (update_execute P svc (id f) None (Some media))
                      (fun _ => ret {| w_id := id f; w_action := "updated" |}))
    | [] =>
        bind (create_execute P svc
                {| b_name := Some (wb_name body);
                   b_mimeType := Some (wb_mime_type body);
                   b_parents := Some [folder_id] |} media "id")
          (fun created => ret {| w_id := id created; w_action := "created" |})
    end {| fs := fs w2; store := s3; calls := (calls w2 ++ [FilesList lookup])%list |}.
Proof.
  intros Hkey Hcand Hsvc Hfolder lookup Hlist media.
  unfold write_file. unfold bind at 1.
  rewrite require_api_key_spec, Hkey, Hcand, String.eqb_refl.
  unfold bind at 1. rewrite Hsvc. unfold bind at 1. rewrite Hfolder.
  unfold bind at 1. unfold list_execute, execute. fold lookup. rewrite Hlist.
  reflexivity.
Qed.

End Frames.

(** Listing never changes the reference provider. *)
Lemma reference_list_read_only (svc : service) (r : list_request) (st : Drive.state) :
  snd (Drive.list svc r st) = st.
Proof. unfold Drive.list. by repeat case_match. Qed.

Lemma walk_reference_read_only (svc : service) (names : list string) :
  forall (parent : string) (w : world Drive.state),
    store (snd (walk Drive.provider svc parent names w)) = store w.
Proof.
  induction names as [|n rest IH]; intros parent w; simpl; [reflexivity|].
  unfold bind, list_execute, execute. simpl.
  destruct (Drive.list svc _ (store w)) as [[resp|e] s'] eqn:E;
    apply (f_equal snd) in E; rewrite reference_list_read_only in E;
    simpl in E; subst s'; [|reflexivity].
  destruct (default [] (files resp)) as [|f fs']; [reflexivity|].
  by rewrite IH.
Qed.

(** ** The reference provider: lookup by name *)

Lemma append_nil_l (b : string) : "" ++ b = b.
Proof. reflexivity. Qed.

Lemma append_cons (c : ascii) (a b : string) : String c a ++ b = String c (a ++ b).
Proof. reflexivity. Qed.

Lemma append_nil_r (a : string) : a ++ "" = a.
Proof. induction a as [|x a IH]; [reflexivity | by rewrite append_cons, IH]. Qed.

Lemma append_assoc (a b c : string) : (a ++ b) ++ c = a ++ (b ++ c).
Proof. induction a as [|x a IH]; [reflexivity | by rewrite !append_cons, IH]. Qed.

(** A plain literal is read back as it was written. *)
Lemma lex_literal (lit rest : string) :
  Drive.plain lit = true ->
  forall acc,
    Drive.lex (Drive.InLit acc) (lit ++ String "'" rest) =
    cons (Drive.TLit (acc ++ lit)) <$> Drive.lex (Drive.InWord "") rest.
Proof.
  intros Hp. induction lit as [|c lit IH]; intros acc.
  - by rewrite append_nil_l, append_nil_r.
  - simpl in Hp. apply andb_true_iff in Hp as [Hc Hp].
    apply negb_true_iff, orb_false_iff in Hc as [Hq Hb].
    rewrite append_cons. cbn [Drive.lex]. rewrite Hq, Hb, (IH Hp).
    unfold Drive.snoc. by rewrite append_assoc.
Qed.



Lemma first_of_filter (p : Drive.drive_file -> bool) (st : Drive.state) :
  firstn 1 (filter (fun f => p f = true) st) =
    match List.find p st with Some f => [f] | None => [] end.
Proof.
  induction st as [|f st IH]; [reflexivity|].
  rewrite filter_cons. simpl. destruct (p f) eqn:E.
  - rewrite decide_True by done. reflexivity.
  - rewrite decide_False by congruence. exact IH.
Qed.


(** ** The claims *)

Section Claims.

Context {S : Type}.
Variable P : Provider S.
Variable A : OAuth.
Variable environ : gmap string string.
Variable encode_utf8 decode_utf8_replace : string -> string.

Local Abbreviation serve_one := (app P A environ encode_utf8 decode_utf8_replace).

(** C1 (amended). A read that passes the API-key gate, builds the client
    and resolves the scope folder is decided by the metadata lookup whenever
    the scope folder is not among parents it returns: if the lookup returns
    (and the returned parents lack the scope folder) the answer is 403; if
    the lookup itself raises, as it does for an identifier no file has, the
    exception is not caught and is the outcome of the request (an unhandled
    error, 500, for an exception of the client library), not 403. In both
    cases no download call is made during the request. *)
Theorem C1_read_outside_scope_forbidden
    (file_id key folder_id : string) (x_api_key authorization : option string)
    (svc : service) (lookup : result file_resource) (w w1 w2 : world S) (s3 : S) :
  get_api_key environ = Ret key ->
  candidate x_api_key authorization = key ->
  get_drive_service A environ w = (Ret svc, w1) ->
  get_playground_folder_id P environ svc w1 = (Ret folder_id, w2) ->
  files_get P svc file_id "id, name, mimeType, parents" (store w2) = (lookup, s3) ->
  (forall meta, lookup = Ret meta -> folder_id ∉ default [] (parents meta)) ->
  exists w3,
    serve_one (GET_files_content file_id x_api_key authorization) w =
      (match lookup with
       | Ret _ =>
           ErrorResponse 403
             "File is not a direct child of the Playground folder. Use /list to get file IDs."
       | Raise (HTTPException status detail) => ErrorResponse status detail
       | Raise e => InternalServerError e
       end, w3)
    /\ exists cs, calls w3 = (calls w ++ cs)%list /\ Forall (fun c => ~ is_download c) cs.
Proof.
  intros Hkey Hcand Hsvc Hfolder Hget Hout.
  destruct (get_drive_service_frame _ _ _ _ _ Hsvc) as [_ Hc1].
  destruct (get_playground_folder_id_frame _ _ _ _ _ _ Hfolder) as [_ (cs & Hc2 & Hall)].
  exists {| fs := fs w2; store := s3;
            calls := (calls w2 ++ [FilesGet file_id "id, name, mimeType, parents"])%list |}.
  split.
  - unfold app, respond, read_file, bind.
    rewrite require_api_key_spec, Hkey, Hcand, String.eqb_refl.
    rewrite Hsvc, Hfolder. unfold get_execute, execute. rewrite Hget.
    destruct lookup as [meta|e].
    + by rewrite (contains_not_elem_of _ _ (Hout meta eq_refl)).
    + by destruct e.
  - simpl. exists (cs ++ [FilesGet file_id "id, name, mimeType, parents"])%list.
    rewrite Hc2, Hc1, <- app_assoc. split; [reflexivity|].
    apply Forall_app. split.
    + eapply Forall_impl; [exact Hall|]. intros c [r ->] [f Hf]. discriminate.
    + repeat constructor. intros [f Hf]. discriminate.
Qed.

(** C2 (amended). On the three gated routes, a request that passes request
    validation and supplies the configured secret neither in X-Api-Key nor in
    the Authorization header is answered with 401; one that fails validation
    is answered with 422 before the gate runs. In both cases the world is
    left as it was: no client is built and no provider call is made. *)
Theorem C2_unauthenticated_rejected_without_provider_call
    (r : request) (x_api_key authorization : option string) (key : string)
    (w : world S) :
  headers_of r = Some (x_api_key, authorization) ->
  get_api_key environ = Ret key ->
  x_api_key <> Some key ->
  bearer_of authorization <> key ->
  serve_one r w =
    (if validates r then ErrorResponse 401 "Invalid or missing API key"
     else UnprocessableEntity, w).
Proof.
  intros Hh Hkey Hx Hb.
  assert (String.eqb (candidate x_api_key authorization) key = false) as Hne.
  { apply String.eqb_neq. unfold candidate, Py.or_else.
    destruct x_api_key as [s|]; [|assumption].
    destruct (Py.truthy s); [congruence | assumption]. }
  destruct r as [|x a t ps|f x a|x a b]; simpl in Hh; simplify_eq; simpl.
  - destruct (validate_page_size ps) as [n|]; simpl; [|reflexivity].
    unfold respond, list_files, bind.
    by rewrite require_api_key_spec, Hkey, Hne.
  - unfold respond, read_file, bind.
    by rewrite require_api_key_spec, Hkey, Hne.
  - destruct (validate_body b) as [b'|]; simpl; [|reflexivity].
    unfold respond, write_file, bind.
    by rewrite require_api_key_spec, Hkey, Hne.
Qed.

(** C8. A list request whose page_size lies outside 1..100 is rejected by
    request validation and leaves the world untouched (no provider call); one
    whose page_size lies inside is handed to the handler with that value, and
    an absent page_size is handed over as 50. *)
Theorem C8_page_size_validated_before_provider
    (x_api_key authorization page_token : option string) (w : world S) :
  (forall n : Z, (n < 1 \/ 100 < n)%Z ->
     serve_one (GET_list x_api_key authorization page_token (Some n)) w
       = (UnprocessableEntity, w))
  /\ (forall n : Z, (1 <= n <= 100)%Z ->
     serve_one (GET_list x_api_key authorization page_token (Some n)) w
       = respond ListJSON (list_files P A environ x_api_key authorization page_token n) w)
  /\ serve_one (GET_list x_api_key authorization page_token None) w
       = respond ListJSON (list_files P A environ x_api_key authorization page_token 50) w.
Proof.
  split; [|split]; [intros n Hn | intros n Hn |]; simpl; [| |reflexivity].
  - destruct (Z.leb_spec 1 n), (Z.leb_spec n 100); simpl; try reflexivity; lia.
  - destruct (Z.leb_spec 1 n), (Z.leb_spec n 100); simpl; try reflexivity; lia.
Qed.

(** C6 (amended). With a configured secret, the gate compares one candidate
    with it: the X-Api-Key header when it is present and non-empty, otherwise
    the Authorization header with surrounding whitespace and a leading
    "Bearer " removed. The request passes exactly when that candidate equals
    the secret. So a request whose X-Api-Key is the secret passes; a request
    whose bearer header carries the secret passes when X-Api-Key is absent or
    empty; and a request with neither header has the empty candidate and is
    answered with 401. *)
Theorem C6_gate_compares_one_candidate (key : string) :
  get_api_key environ = Ret key ->
  (forall x_api_key authorization (w : world S),
     require_api_key environ x_api_key authorization w =
       (if String.eqb (candidate x_api_key authorization) key then Ret tt
        else Raise (HTTPException 401 "Invalid or missing API key"), w))
  /\ (forall authorization, candidate (Some key) authorization = key)
  /\ (forall x_api_key, x_api_key = None \/ x_api_key = Some "" ->
        candidate x_api_key (Some ("Bearer " ++ key)) = key)
  /\ candidate None None = ""
  /\ (forall w : world S,
        require_api_key environ None None w =
          (Raise (HTTPException 401 "Invalid or missing API key"), w)).
Proof.
  intros Hkey. destruct (get_api_key_stripped _ _ Hkey) as [Hne [s ->]].
  split; [|split; [|split; [|split]]].
  - intros x a w. by rewrite require_api_key_spec, Hkey.
  - intros a. unfold candidate, Py.or_else.
    destruct (Py.strip s); [congruence | reflexivity].
  - intros x [-> | ->]; unfold candidate, Py.or_else; simpl; by apply bearer_of_secret.
  - reflexivity.
  - intros w. rewrite require_api_key_spec, Hkey.
    change (candidate None None) with "".
    destruct (String.eqb_spec "" (Py.strip s)); [congruence | reflexivity].
Qed.

(** C5 (amended). Nothing is read from the environment when the application
    is loaded: the secret is looked up by the gate of each gated request.
    When it is absent or blank the process still serves: /health is answered
    with 200, and every gated request fails on its own, a request that passes
    validation with the uncaught RuntimeError of [get_api_key] (HTTP 500),
    before any client construction or provider call (the world is left as it
    was). *)
Theorem C5_missing_secret_fails_per_request (rs : list request) (w : world S) :
  Py.strip (Py.or_else (environ !! "DRIVE_PLAYGROUND_API_KEY") "") = "" ->
  serve P A environ encode_utf8 decode_utf8_replace rs w =
    (map (fun r =>
            match headers_of r with
            | None => OK health
            | Some _ =>
                if validates r
                then InternalServerError
                       (RuntimeError "Set DRIVE_PLAYGROUND_API_KEY in the environment.")
                else UnprocessableEntity
            end) rs, w).
Proof.
  intros Hblank.
  assert (get_api_key environ =
            Raise (RuntimeError "Set DRIVE_PLAYGROUND_API_KEY in the environment.")) as Hkey.
  { unfold get_api_key. by rewrite Hblank. }
  induction rs as [|r rs IH]; [reflexivity|].
  cbn [serve map].
  assert (serve_one r w =
            (match headers_of r with
             | None => OK health
             | Some _ =>
                 if validates r
                 then InternalServerError
                        (RuntimeError "Set DRIVE_PLAYGROUND_API_KEY in the environment.")
                 else UnprocessableEntity
             end, w)) as ->.
  { destruct r as [|x a t ps|f x a|x a b]; simpl.
    - reflexivity.
    - destruct (validate_page_size ps); simpl; [|reflexivity].
      unfold respond, list_files, bind. by rewrite require_api_key_spec, Hkey.
    - unfold respond, read_file, bind. by rewrite require_api_key_spec, Hkey.
    - destruct (validate_body b); simpl; [|reflexivity].
      unfold respond, write_file, bind. by rewrite require_api_key_spec, Hkey. }
  by rewrite IH.
Qed.

(** C4 (amended). When no explicit folder identifier is configured and some
    step of the walk finds no matching folder, the resolver raises a
    ValueError whose message gives the whole intended path and the name
    looked up at the failing step. No handler catches it: on each gated route
    it leaves the handler uncaught, which is an HTTP 500 response (there is no
    NotFoundError and no mapping to 404). *)
Theorem C4_unresolved_folder_is_uncaught_ValueError
    (r : request) (x_api_key authorization : option string) (key name : string)
    (svc : service) (w w1 : world S) :
  headers_of r = Some (x_api_key, authorization) ->
  validates r = true ->
  get_api_key environ = Ret key ->
  candidate x_api_key authorization = key ->
  get_drive_service A environ w = (Ret svc, w1) ->
  Py.strip (Py.or_else (environ !! "DRIVE_PLAYGROUND_FOLDER_ID") "") = "" ->
  misses P svc "root" PLAYGROUND_PATH (store w1) name ->
  let msg :=
    "Folder not found: Personal / AI Research / OpenClaw Playground. Missing after: "
      ++ name
      ++ ". Create the folder in Drive or set DRIVE_PLAYGROUND_FOLDER_ID to the folder ID." in
  (exists w2, get_playground_folder_id P environ svc w1 = (Raise (ValueError msg), w2))
  /\ (exists w2, serve_one r w = (InternalServerError (ValueError msg), w2))
  /\ status_of (fst (serve_one r w)) = 500%Z.
Proof.
  intros Hh Hv Hkey Hcand Hsvc Hnoid Hmiss msg.
  destruct (walk_misses _ _ _ _ _ _ Hmiss w1 eq_refl) as [w2 Hwalk].
  assert (get_playground_folder_id P environ svc w1 = (Raise (ValueError msg), w2)) as Hres.
  { unfold get_playground_folder_id. rewrite Hnoid. exact Hwalk. }
  assert (serve_one r w = (InternalServerError (ValueError msg), w2)) as Hresp.
  { destruct r as [|x a t ps|f x a|x a b]; simpl in Hh, Hv; simplify_eq; simpl.
    - destruct (validate_page_size ps) as [n|]; [|by case_bool_decide].
      unfold respond, list_files, bind.
      by rewrite require_api_key_spec, Hkey, String.eqb_refl, Hsvc, Hres.
    - unfold respond, read_file, bind.
      by rewrite require_api_key_spec, Hkey, String.eqb_refl, Hsvc, Hres.
    - destruct (validate_body b) as [b'|] eqn:Eb.
      + unfold respond, write_file, bind.
        by rewrite require_api_key_spec, Hkey, String.eqb_refl, Hsvc, Hres.
      + exfalso. revert Hv. rewrite bool_decide_eq_true. by intros [? ?]. }
  split; [eauto | split; [eauto|]]. by rewrite Hresp.
Qed.

(** C7 (amended). When the stored credentials are unusable and the
    interactive flow succeeds, the client is built from the new credentials,
    and the new token is written to the token file exactly when the token
    blob of the deployment is unset (or blank) and no token file exists yet:
    an existing token file is left as it is. Nothing else changes. *)
Theorem C7_token_persisted_when_no_token_file
    (stored refreshed : option credentials) (c : credentials) (w : world S) :
  fst (load_stored_credentials A environ w) = Ret stored ->
  fst (refresh_if_expired A stored w) = Ret refreshed ->
  usable refreshed = false ->
  fst (run_interactive_flow A environ w) = Ret c ->
  exists w',
    get_drive_service A environ w = (Ret {| svc_credentials := c |}, w')
    /\ store w' = store w /\ calls w' = calls w
    /\ (token_json environ = "" -> fs w !! TOKEN_FILE = None ->
         fs w' = <[TOKEN_FILE := to_json A c]> (fs w))
    /\ (token_json environ <> "" \/ is_Some (fs w !! TOKEN_FILE) -> fs w' = fs w).
Proof.
  intros Hload Hrefresh Hunusable Hflow.
  destruct (load_stored_credentials A environ w) as [r0 w0] eqn:E0.
  pose proof (load_stored_credentials_frame _ _ _ _ _ E0) as ->.
  destruct (refresh_if_expired A stored w) as [r1 w1] eqn:E1.
  pose proof (refresh_if_expired_frame _ _ _ _ _ E1) as ->.
  destruct (run_interactive_flow A environ w) as [r2 w2] eqn:E2.
  pose proof (run_interactive_flow_frame _ _ _ _ _ E2) as ->.
  simpl in Hload, Hrefresh, Hflow. subst r0 r1 r2.
  assert (forall w',
    persist_token A environ c w = (Ret tt, w') ->
    get_drive_service A environ w = (Ret {| svc_credentials := c |}, w')) as Hgds.
  { intros w' Hp. unfold get_drive_service, bind. rewrite E0, E1.
    destruct refreshed as [c1|]; simpl in Hunusable;
      [rewrite Hunusable|]; rewrite E2, Hp; reflexivity. }
  unfold persist_token, path_exists, write_text, bind, ret in Hgds.
  destruct (Py.truthy (token_json environ)) eqn:Et;
    [|destruct (fs w !! TOKEN_FILE) as [old|] eqn:Ef];
    rewrite ?Ef in Hgds; simpl in Hgds;
    (eexists; split; [apply Hgds; reflexivity|]); simpl;
    repeat split; auto.
  - intros Hblank. rewrite Hblank in Et. discriminate.
  - intros _ Hnone. rewrite Hnone in Ef. discriminate.
  - apply truthy_false in Et. intros [Hset | [? Hsome]]; congruence.
Qed.

(** C9. Folder resolution is idempotent. A configured folder identifier is
    returned as it is and the world is untouched (no provider call). The
    outcome of a resolution depends on the world only through the state of
    the provider, so two resolutions against the same provider state agree;
    and against the reference provider, which listing does not change, a
    second resolution right after the first yields the same outcome. *)
Theorem C9_folder_resolution_idempotent (svc : service) :
  (forall (folder_id : string) (w : world S),
     Py.strip (Py.or_else (environ !! "DRIVE_PLAYGROUND_FOLDER_ID") "") = folder_id ->
     folder_id <> "" ->
     get_playground_folder_id P environ svc w = (Ret folder_id, w))
  /\ (forall w1 w2 : world S,
        store w1 = store w2 ->
        fst (get_playground_folder_id P environ svc w1)
          = fst (get_playground_folder_id P environ svc w2))
  /\ (forall w : world Drive.state,
        let first := get_playground_folder_id Drive.provider environ svc w in
        store (snd first) = store w
        /\ fst (get_playground_folder_id Drive.provider environ svc (snd first)) = fst first).
Proof.
  split; [|split].
  - intros folder_id w Hid Hne. unfold get_playground_folder_id. rewrite Hid.
    destruct folder_id; [congruence | reflexivity].
  - intros w1 w2 Hs. unfold get_playground_folder_id.
    case_match; [reflexivity|]. by apply walk_store_only.
  - intros w first. subst first. unfold get_playground_folder_id.
    case_match; [split; reflexivity|].
    pose proof (walk_reference_read_only svc PLAYGROUND_PATH "root" w) as Hs.
    split; [exact Hs|].
    by apply walk_store_only.
Qed.

(** C10. On a write that passes the gate and resolves the scope folder: if
    the lookup by name returns a file, the provider calls that follow are the
    update that sends only the name and then (if the first succeeds) the
    update that sends only the media content, both on the returned file and
    neither with a parents field; if the lookup returns no file, the one call
    that follows is a create whose parents are exactly the scope folder. On
    the reference provider an update without a parents field leaves the
    identifiers and the parents of all files as they were. *)
Theorem C10_only_create_sends_parents
    (body : WriteBody) (x_api_key authorization : option string)
    (key folder_id : string) (svc : service) (existing : list_response)
    (w w1 w2 : world S) (s3 : S) :
  get_api_key environ = Ret key ->
  candidate x_api_key authorization = key ->
  get_drive_service A environ w = (Ret svc, w1) ->
  get_playground_folder_id P environ svc w1 = (Ret folder_id, w2) ->
  let lookup :=
    {| q := existing_query folder_id (wb_name body); spaces := None;
       fields := "files(id)"; pageSize := 1; pageToken := None |} in
  files_list P svc lookup (store w2) = (Ret existing, s3) ->
  let media :=
    {| m_bytes := encode_utf8 (wb_content body); m_mimetype := wb_mime_type body;
       m_resumable := false |} in
  let rename fileId :=
    FilesUpdate fileId
      (Some {| b_name := Some (wb_name body); b_mimeType := None; b_parents := None |})
      None in
  let upload fileId := FilesUpdate fileId None (Some media) in
  let after :=
    calls (snd (write_file P A environ encode_utf8 body x_api_key authorization w)) in
  (forall f rest, default [] (files existing) = f :: rest ->
     exists cs, after = (calls w2 ++ FilesList lookup :: cs)%list
       /\ (cs = [rename (id f)] \/ cs = [rename (id f); upload (id f)])
       /\ Forall (fun c => sent_parents c = None) cs)
  /\ (default [] (files existing) = [] ->
      after = (calls w2 ++
                 [FilesList lookup;
                  FilesCreate
                    {| b_name := Some (wb_name body);
                       b_mimeType := Some (wb_mime_type body);
                       b_parents := Some [folder_id] |} media "id"])%list)
  /\ (forall (st : Drive.state) (fileId : string) b m,
        sent_parents (FilesUpdate fileId b m) = None ->
        let st' := snd (Drive.update svc fileId b m st) in
        map Drive.f_id st' = map Drive.f_id st
        /\ map Drive.f_parents st' = map Drive.f_parents st).
Proof.
  intros Hkey Hcand Hsvc Hfolder lookup Hlist media rename upload after.
  subst after.
  rewrite (write_file_after_lookup P A environ encode_utf8 _ _ _ _ _ _ _ _ _ _ _
             Hkey Hcand Hsvc Hfolder Hlist).
  split; [|split].
  - intros f rest Hf. rewrite Hf.
    unfold bind, update_execute, execute, ret. simpl.
    destruct (files_update P svc (id f) _ None s3) as [[[]|e] s4]; simpl.
    + destruct (files_update P svc (id f) None _ s4) as [[[]|e] s5]; simpl;
        (eexists; split; [rewrite <- !app_assoc; reflexivity|]);
        (split; [right; reflexivity | repeat constructor]).
    + eexists; split; [rewrite <- !app_assoc; reflexivity|].
      split; [left; reflexivity | repeat constructor].
  - intros Hnone. rewrite Hnone.
    unfold bind, create_execute, execute, ret. simpl.
    match goal with
    | |- context [files_create P svc ?b ?m ?f s3] =>
        destruct (files_create P svc b m f s3) as [[created|e] s4]
    end; simpl; by rewrite <- !app_assoc.
  - intros st fileId b m Hnp st'. subst st'. simpl in Hnp.
    unfold Drive.update. destruct (Drive.lookup fileId st); simpl; [|done].
    clear -Hnp. induction st as [|f st [IH1 IH2]]; [done|].
    simpl. rewrite IH1, IH2.
    destruct (String.eqb (Drive.f_id f) fileId); [|done].
    unfold Drive.patch. simpl. by rewrite Hnp.
Qed.

End Claims.

(** ** Writes on the reference provider, for names that need no escaping *)






(** ** The claims at concrete inputs *)

Lemma C1_witness :
  exists w3,
    Fixture.run Fixture.env (GET_files_content "z" (Some "k") None) Fixture.world0 =
      (ErrorResponse 403
         "File is not a direct child of the Playground folder. Use /list to get file IDs.",
       w3)
    /\ exists cs, calls w3 = (calls Fixture.world0 ++ cs)%list
                  /\ Forall (fun c => ~ is_download c) cs.
Proof.
  apply (C1_read_outside_scope_forbidden Drive.provider Fixture.oauth Fixture.env
           (fun s => s) (fun s => s) "z" "k" "F" (Some "k") None
           {| svc_credentials := Fixture.fresh |}
           (Ret (Drive.resource "id, name, mimeType, parents"
                   (Fixture.file "z" "other.txt" "text/plain" ["a1"])))
           Fixture.world0 Fixture.world0
           (snd (get_playground_folder_id Drive.provider Fixture.env
                   {| svc_credentials := Fixture.fresh |} Fixture.world0))
           Fixture.drive).
  - vm_compute. reflexivity.
  - vm_compute. reflexivity.
  - vm_compute. reflexivity.
  - vm_compute. reflexivity.
  - vm_compute. reflexivity.
  - intros meta Hmeta H. injection Hmeta as <-.
    apply contains_elem_of in H. vm_compute in H. discriminate.
Defined.

(** C1 as stated fails: no file has the identifier "nope", so the metadata
    lookup returns no parents at all (the scope folder is not among them),
    the request passes the gate and the folder resolves to "F"; the answer is
    the unhandled error of the lookup, not 403. *)
Lemma C1_counterexample :
  get_api_key Fixture.env = Ret (candidate (Some "k") None)
  /\ fst (get_playground_folder_id Drive.provider Fixture.env
            {| svc_credentials := Fixture.fresh |} Fixture.world0) = Ret "F"
  /\ Drive.lookup "nope" Fixture.drive = None
  /\ (forall meta,
        fst (files_get Drive.provider {| svc_credentials := Fixture.fresh |} "nope"
               "id, name, mimeType, parents" Fixture.drive) <> Ret meta)
  /\ fst (Fixture.run Fixture.env (GET_files_content "nope" (Some "k") None)
            Fixture.world0)
     = InternalServerError (Drive.HttpError "404" "File not found: nope")
  /\ status_of (fst (Fixture.run Fixture.env (GET_files_content "nope" (Some "k") None)
                       Fixture.world0)) <> 403%Z.
Proof.
  split; [vm_compute; reflexivity|]. split; [vm_compute; reflexivity|].
  split; [vm_compute; reflexivity|]. split; [intros meta; vm_compute; discriminate|].
  split; [vm_compute; reflexivity | vm_compute; discriminate].
Qed.

Lemma C2_witness :
  Fixture.run Fixture.env (GET_files_content "y" (Some "guess") (Some "Bearer nope"))
      Fixture.world0 =
    (ErrorResponse 401 "Invalid or missing API key", Fixture.world0).
Proof.
  apply (C2_unauthenticated_rejected_without_provider_call Drive.provider Fixture.oauth
           Fixture.env (fun s => s) (fun s => s)
           (GET_files_content "y" (Some "guess") (Some "Bearer nope"))
           (Some "guess") (Some "Bearer nope") "k" Fixture.world0).
  - reflexivity.
  - vm_compute. reflexivity.
  - discriminate.
  - vm_compute. discriminate.
Defined.

(** C2 as stated fails: a list request without any secret and with
    page_size 0 is answered with 422, not 401. *)
Lemma C2_counterexample :
  headers_of (GET_list None None None (Some 0%Z)) = Some (None, None)
  /\ get_api_key Fixture.env = Ret "k"
  /\ None <> Some "k"
  /\ bearer_of None <> "k"
  /\ status_of (fst (Fixture.run Fixture.env (GET_list None None None (Some 0%Z))
                       Fixture.world0)) <> 401%Z.
Proof. vm_compute. repeat split; discriminate. Qed.

(** C3 fails on the code for a name that holds a single quote. The scope
    folder "F" has the non-trashed child "x" named [it's]; writing to that
    name builds the query ['F' in parents and name = 'it's' and trashed =
    false], in which the quote of the name ends the literal. The provider
    rejects the query and the error leaves the handler uncaught: neither
    "updated" with "x" nor "created". *)
Theorem C3_write_to_quoted_name_fails :
  fst (get_playground_folder_id Drive.provider Fixture.env
         {| svc_credentials := Fixture.fresh |} Fixture.world0) = Ret "F"
  /\ (exists f, f ∈ Fixture.drive /\ Drive.f_id f = "x" /\ Drive.f_name f = "it's"
                /\ "F" ∈ Drive.f_parents f /\ Drive.f_trashed f = false)
  /\ existing_query "F" "it's" = "'F' in parents and name = 'it's' and trashed = false"
  /\ Drive.parse_query (existing_query "F" "it's") = None
  /\ fst (Fixture.run Fixture.env
            (POST_write (Some "k") None
               {| j_name := Some "it's"; j_content := Some "hi"; j_mime_type := None |})
            Fixture.world0)
     = InternalServerError (Drive.HttpError "400" "Invalid Value: q").
Proof.
  split; [vm_compute; reflexivity|].
  split.
  { exists (Fixture.file "x" "it's" "text/plain" ["F"]).
    repeat split; try reflexivity.
    - unfold Fixture.drive. do 3 right. left.
    - left. }
  repeat split; vm_compute; reflexivity.
Qed.

Lemma C4_witness :
  let msg :=
    "Folder not found: Personal / AI Research / OpenClaw Playground. Missing after: "
      ++ "Personal"
      ++ ". Create the folder in Drive or set DRIVE_PLAYGROUND_FOLDER_ID to the folder ID." in
  (exists w2,
     get_playground_folder_id Drive.provider Fixture.env
       {| svc_credentials := Fixture.fresh |} Fixture.empty_world
       = (Raise (ValueError msg), w2))
  /\ (exists w2,
        Fixture.run Fixture.env (GET_list (Some "k") None None None) Fixture.empty_world
          = (InternalServerError (ValueError msg), w2))
  /\ status_of (fst (Fixture.run Fixture.env (GET_list (Some "k") None None None)
                       Fixture.empty_world)) = 500%Z.
Proof.
  apply (C4_unresolved_folder_is_uncaught_ValueError Drive.provider Fixture.oauth
           Fixture.env (fun s => s) (fun s => s)
           (GET_list (Some "k") None None None) (Some "k") None "k" "Personal"
           {| svc_credentials := Fixture.fresh |} Fixture.empty_world Fixture.empty_world).
  - reflexivity.
  - vm_compute. reflexivity.
  - vm_compute. reflexivity.
  - vm_compute. reflexivity.
  - vm_compute. reflexivity.
  - vm_compute. reflexivity.
  - eapply misses_here; vm_compute; reflexivity.
Defined.

(** C4 as stated fails: with no "Personal" folder under the root, the walk
    misses at its first step and the list route answers 500, not 404. *)
Lemma C4_counterexample :
  misses Drive.provider {| svc_credentials := Fixture.fresh |} "root" PLAYGROUND_PATH
    (store Fixture.empty_world) "Personal"
  /\ status_of (fst (Fixture.run Fixture.env (GET_list (Some "k") None None None)
                       Fixture.empty_world)) <> 404%Z.
Proof.
  split.
  - eapply misses_here; vm_compute; reflexivity.
  - vm_compute. discriminate.
Qed.

Lemma C5_witness :
  serve Drive.provider Fixture.oauth Fixture.env_no_key (fun s => s) (fun s => s)
    [GET_health; GET_list (Some "k") None None None; GET_list None None None (Some 0%Z)]
    Fixture.world0 =
  ([OK health;
    InternalServerError (RuntimeError "Set DRIVE_PLAYGROUND_API_KEY in the environment.");
    UnprocessableEntity], Fixture.world0).
Proof.
  apply (C5_missing_secret_fails_per_request Drive.provider Fixture.oauth
           Fixture.env_no_key (fun s => s) (fun s => s)
           [GET_health; GET_list (Some "k") None None None;
            GET_list None None None (Some 0%Z)] Fixture.world0).
  vm_compute. reflexivity.
Defined.

(** C5 as stated fails: without the secret in the environment the process
    serves requests (the health probes get 200), and the configuration error
    is the outcome of the one gated request between them. *)
Lemma C5_counterexample :
  Fixture.env_no_key !! "DRIVE_PLAYGROUND_API_KEY" = None
  /\ fst (serve Drive.provider Fixture.oauth Fixture.env_no_key (fun s => s) (fun s => s)
            [GET_health; GET_list (Some "k") None None None; GET_health] Fixture.world0)
     = [OK health;
        InternalServerError (RuntimeError "Set DRIVE_PLAYGROUND_API_KEY in the environment.");
        OK health].
Proof. split; vm_compute; reflexivity. Qed.

Lemma C6_witness :
  (forall x_api_key authorization (w : world Drive.state),
     require_api_key Fixture.env x_api_key authorization w =
       (if String.eqb (candidate x_api_key authorization) "k" then Ret tt
        else Raise (HTTPException 401 "Invalid or missing API key"), w))
  /\ (forall authorization, candidate (Some "k") authorization = "k")
  /\ (forall x_api_key, x_api_key = None \/ x_api_key = Some "" ->
        candidate x_api_key (Some ("Bearer " ++ "k")) = "k")
  /\ candidate None None = ""
  /\ (forall w : world Drive.state,
        require_api_key Fixture.env None None w =
          (Raise (HTTPException 401 "Invalid or missing API key"), w)).
Proof.
  apply (C6_gate_compares_one_candidate (S := Drive.state) Fixture.env "k").
  vm_compute. reflexivity.
Defined.

(** C6 as stated fails: a bearer header that carries the secret does not
    authorize a request that also sends another, non-empty X-Api-Key. *)
Lemma C6_counterexample :
  get_api_key Fixture.env = Ret "k"
  /\ bearer_of (Some "Bearer k") = "k"
  /\ fst (require_api_key Fixture.env (Some "other") (Some "Bearer k") Fixture.world0)
     = Raise (HTTPException 401 "Invalid or missing API key").
Proof. repeat split; vm_compute; reflexivity. Qed.

Lemma C7_witness :
  exists w',
    get_drive_service Fixture.oauth Fixture.env_local Fixture.first_run_world
      = (Ret {| svc_credentials := Fixture.fresh |}, w')
    /\ store w' = store Fixture.first_run_world
    /\ calls w' = calls Fixture.first_run_world
    /\ (token_json Fixture.env_local = "" ->
        fs Fixture.first_run_world !! TOKEN_FILE = None ->
        fs w' = <[TOKEN_FILE := to_json Fixture.oauth Fixture.fresh]>
                  (fs Fixture.first_run_world))
    /\ (token_json Fixture.env_local <> ""
        \/ is_Some (fs Fixture.first_run_world !! TOKEN_FILE) ->
        fs w' = fs Fixture.first_run_world).
Proof.
  apply (C7_token_persisted_when_no_token_file Fixture.oauth Fixture.env_local
           None None Fixture.fresh Fixture.first_run_world).
  - vm_compute. reflexivity.
  - vm_compute. reflexivity.
  - reflexivity.
  - vm_compute. reflexivity.
Defined.

(** C7 as stated fails: no token blob is configured, the token file holds a
    stale token, the interactive flow succeeds and the client is built from
    the new token, yet the token file still holds the stale one. *)
Lemma C7_counterexample :
  token_json Fixture.env_local = ""
  /\ fst (run_interactive_flow Fixture.oauth Fixture.env_local Fixture.local_world)
     = Ret Fixture.fresh
  /\ fst (get_drive_service Fixture.oauth Fixture.env_local Fixture.local_world)
     = Ret {| svc_credentials := Fixture.fresh |}
  /\ fs (snd (get_drive_service Fixture.oauth Fixture.env_local Fixture.local_world))
       !! TOKEN_FILE = Some "stale"
  /\ Some "stale" <> Some (to_json Fixture.oauth Fixture.fresh).
Proof. repeat split; vm_compute; (reflexivity || discriminate). Qed.

Lemma C8_witness :
  Fixture.run Fixture.env (GET_list (Some "k") None None (Some 101%Z)) Fixture.world0
    = (UnprocessableEntity, Fixture.world0)
  /\ Fixture.run Fixture.env (GET_list (Some "k") None None (Some 100%Z)) Fixture.world0
     = respond ListJSON
         (list_files Drive.provider Fixture.oauth Fixture.env (Some "k") None None 100)
         Fixture.world0.
Proof.
  destruct (C8_page_size_validated_before_provider Drive.provider Fixture.oauth
              Fixture.env (fun s => s) (fun s => s) (Some "k") None None Fixture.world0)
    as (Hout & Hin & _).
  split; [apply Hout; lia | apply Hin; lia].
Defined.

Lemma C9_witness :
  get_playground_folder_id Drive.provider Fixture.env_folder
    {| svc_credentials := Fixture.fresh |} Fixture.world0 = (Ret "F", Fixture.world0)
  /\ fst (get_playground_folder_id Drive.provider Fixture.env
            {| svc_credentials := Fixture.fresh |}
            (snd (get_playground_folder_id Drive.provider Fixture.env
                    {| svc_credentials := Fixture.fresh |} Fixture.world0)))
     = fst (get_playground_folder_id Drive.provider Fixture.env
              {| svc_credentials := Fixture.fresh |} Fixture.world0).
Proof.
  split.
  - apply (proj1 (C9_folder_resolution_idempotent Drive.provider Fixture.env_folder
                    {| svc_credentials := Fixture.fresh |})).
    + vm_compute. reflexivity.
    + discriminate.
  - apply (proj2 (proj2 (C9_folder_resolution_idempotent Drive.provider Fixture.env
                           {| svc_credentials := Fixture.fresh |})) Fixture.world0).
Defined.

Lemma C10_witness :
  let body := {| wb_name := "note.txt"; wb_content := "hi"; wb_mime_type := "text/plain" |} in
  let svc := {| svc_credentials := Fixture.fresh |} in
  let w2 := snd (get_playground_folder_id Drive.provider Fixture.env svc Fixture.world0) in
  let lookup :=
    {| q := existing_query "F" "note.txt"; spaces := None; fields := "files(id)";
       pageSize := 1; pageToken := None |} in
  exists cs,
    calls (snd (write_file Drive.provider Fixture.oauth Fixture.env (fun s => s) body
                  (Some "k") None Fixture.world0))
      = (calls w2 ++ FilesList lookup :: cs)%list
    /\ Forall (fun c => sent_parents c = None) cs.
Proof.
  intros body svc w2 lookup.
  destruct (C10_only_create_sends_parents Drive.provider Fixture.oauth Fixture.env
              (fun s => s) body (Some "k") None "k" "F" svc
              {| files := Some [Drive.resource "files(id)"
                                  (Fixture.file "y" "note.txt" "text/plain" ["F"])];
                 nextPageToken := None |}
              Fixture.world0 Fixture.world0 w2 Fixture.drive)
    as (Hupdate & _ & _).
  - vm_compute. reflexivity.
  - vm_compute. reflexivity.
  - vm_compute. reflexivity.
  - vm_compute. reflexivity.
  - vm_compute. reflexivity.
  - destruct (Hupdate (Drive.resource "files(id)"
                         (Fixture.file "y" "note.txt" "text/plain" ["F"])) [])
      as (cs & Hcalls & _ & Hnone).
    + vm_compute. reflexivity.
    + exists cs. split; assumption.
Defined.

(** ** The end-to-end scenarios, run on the reference provider *)

Example strip_example : Py.strip "  s3cret " = "s3cret" /\ Py.strip "   " = "".
Proof. split; reflexivity. Qed.

Example removeprefix_example :
  Py.removeprefix "Bearer " "Bearer k" = "k" /\ Py.removeprefix "Bearer " "k" = "k".
Proof. split; reflexivity. Qed.

(** A first write creates the file, a second one with the same name updates
    it, and a read of the returned identifier gives the new content. *)
Example scenario_create_update_read :
  fst (serve Drive.provider Fixture.oauth Fixture.env (fun s => s) (fun s => s)
         [POST_write (Some "k") None
            {| j_name := Some "new.txt"; j_content := Some "hi";
               j_mime_type := Some "text/plain" |};
          POST_write None (Some "Bearer k")
            {| j_name := Some "new.txt"; j_content := Some "hi again";
               j_mime_type := Some "text/plain" |};
          GET_files_content "+++" (Some "k") None]
         Fixture.world0)
  = [OK (WriteJSON {| w_id := "+++"; w_action := "created" |});
     OK (WriteJSON {| w_id := "+++"; w_action := "updated" |});
     OK (PlainTextResponse "hi again")].
Proof. vm_compute. reflexivity. Qed.

(** A read of a file that lives in another folder is refused. *)
Example scenario_read_outside_scope :
  fst (Fixture.run Fixture.env (GET_files_content "z" (Some "k") None) Fixture.world0)
  = ErrorResponse 403
      "File is not a direct child of the Playground folder. Use /list to get file IDs.".
Proof. vm_compute. reflexivity. Qed.

(** A read of an identifier the provider does not know fails in the metadata
    lookup, outside the handler's [try]. *)
Example scenario_read_unknown_id :
  fst (Fixture.run Fixture.env (GET_files_content "nope" (Some "k") None) Fixture.world0)
  = InternalServerError (Drive.HttpError "404" "File not found: nope").
Proof. vm_compute. reflexivity. Qed.

(** The playground is listed page by page. *)
Example scenario_list_pages :
  fst (serve Drive.provider Fixture.oauth Fixture.env (fun s => s) (fun s => s)
         [GET_list (Some "k") None None (Some 1%Z);
          GET_list (Some "k") None (Some "+") (Some 1%Z)]
         Fixture.world0)
  = [OK (ListJSON
           {| lr_files := [Drive.resource
                             "nextPageToken, files(id, name, mimeType, modifiedTime, size)"
                             (Fixture.file "x" "it's" "text/plain" ["F"])];
              lr_nextPageToken := Some "+" |});
     OK (ListJSON
           {| lr_files := [Drive.resource
                             "nextPageToken, files(id, name, mimeType, modifiedTime, size)"
                             (Fixture.file "y" "note.txt" "text/plain" ["F"])];
              lr_nextPageToken := None |})].
Proof. vm_compute. reflexivity. Qed.

(** ** Further properties: the secret and the headers *)

Lemma lstrip_all_space (l t : string) :
  all_space l = true -> Py.lstrip (l ++ t) = Py.lstrip t.
Proof.
  induction l as [|c l IH]; intros H; [reflexivity|].
  simpl in H. apply andb_true_iff in H as [Hc Hl].
  rewrite append_cons. simpl. rewrite Hc. auto.
Qed.

Lemma rstrip_all_space (r : string) : all_space r = true <-> Py.rstrip r = "".
Proof.
  induction r as [|c r IH]; simpl; [tauto|].
  destruct (Py.rstrip r) eqn:E.
  - destruct (Py.is_space c); simpl; [tauto|]. split; [discriminate|discriminate].
  - split; [|discriminate]. intros H. apply andb_true_iff in H as [_ H].
    apply IH in H. discriminate.
Qed.

Lemma rstrip_app_space (t r : string) :
  all_space r = true -> Py.rstrip (t ++ r) = Py.rstrip t.
Proof.
  intros Hr. induction t as [|c t IH].
  - rewrite append_nil_l. simpl. by apply rstrip_all_space.
  - rewrite append_cons. simpl. by rewrite IH.
Qed.

Lemma lstrip_head (s : string) (c : ascii) (r : string) :
  Py.lstrip s = String c r -> Py.is_space c = false.
Proof.
  induction s as [|d s IH]; simpl; [discriminate|].
  destruct (Py.is_space d) eqn:E; [exact IH|]. intros H. by simplify_eq.
Qed.

Lemma rstrip_head (c : ascii) (t : string) (c' : ascii) (r' : string) :
  Py.rstrip (String c t) = String c' r' -> c' = c.
Proof.
  simpl. destruct (Py.rstrip t); [destruct (Py.is_space c)|]; intros H; by simplify_eq.
Qed.

Lemma rstrip_last (t : string) :
  forall (p : string) (c : ascii),
    Py.rstrip t = p ++ String c "" -> Py.is_space c = false.
Proof.
  induction t as [|d t IH]; intros p c; simpl.
  - destruct p; discriminate.
  - destruct (Py.rstrip t) as [|e r'] eqn:E.
    + destruct (Py.is_space d) eqn:Ed; [destruct p; discriminate|].
      destruct p as [|x p]; [rewrite append_nil_l | rewrite append_cons];
        intros H; simplify_eq; [assumption | destruct p; discriminate].
    + destruct p as [|x p]; [rewrite append_nil_l | rewrite append_cons];
        intros H; simplify_eq. eapply IH. eassumption.
Qed.

Lemma strip_blank (s : string) : Py.strip s = "" <-> all_space s = true.
Proof.
  unfold Py.strip. rewrite <- rstrip_all_space.
  induction s as [|c s IH]; simpl; [tauto|].
  destruct (Py.is_space c) eqn:E; simpl; [exact IH | by rewrite E].
Qed.

(** A trimmed string starts and ends with a character that is not a space. *)
Lemma strip_trimmed (s : string) :
  (forall c r, Py.strip s = String c r -> Py.is_space c = false)
  /\ (forall p c, Py.strip s = p ++ String c "" -> Py.is_space c = false).
Proof.
  split.
  - unfold Py.strip. intros c r H.
    destruct (Py.lstrip s) as [|d t] eqn:E; [discriminate|].
    apply rstrip_head in H as ->. eapply lstrip_head, E.
  - intros p c. apply rstrip_last.
Qed.

Lemma strip_padded (c : ascii) (t l r : string) :
  Py.is_space c = false -> Py.rstrip (String c t) = String c t ->
  all_space l = true -> all_space r = true ->
  Py.strip (l ++ String c t ++ r) = String c t.
Proof.
  intros Hc Ht Hl Hr. unfold Py.strip.
  rewrite (lstrip_all_space _ _ Hl), append_cons.
  cbn [Py.lstrip]. rewrite Hc, <- append_cons, (rstrip_app_space _ _ Hr). exact Ht.
Qed.

Lemma removeprefix_app (p s : string) : Py.removeprefix p (p ++ s) = s.
Proof.
  unfold Py.removeprefix.
  assert (Py.startswith p (p ++ s) = true /\ Py.drop (String.length p) (p ++ s) = s) as [-> ->];
    [|reflexivity].
  induction p as [|c p [IH1 IH2]]; [by destruct s|].
  rewrite append_cons. simpl. by rewrite Ascii.eqb_refl.
Qed.

(** X1. [get_api_key] fails exactly when the variable is unset, empty or
    only whitespace; otherwise it returns the value without its surrounding
    whitespace, so the secret is never empty and neither starts nor ends with
    a whitespace character. *)
Theorem get_api_key_blank_or_trimmed (environ : gmap string string) :
  get_api_key environ =
    (if all_space (Py.or_else (environ !! "DRIVE_PLAYGROUND_API_KEY") "")
     then Raise (RuntimeError "Set DRIVE_PLAYGROUND_API_KEY in the environment.")
     else Ret (Py.strip (Py.or_else (environ !! "DRIVE_PLAYGROUND_API_KEY") "")))
  /\ (forall key, get_api_key environ = Ret key ->
        (exists c r, key = String c r /\ Py.is_space c = false)
        /\ (forall p c, key = p ++ String c "" -> Py.is_space c = false)).
Proof.
  split.
  - unfold get_api_key.
    destruct (all_space _) eqn:E.
    + apply strip_blank in E. by rewrite E.
    + destruct (Py.strip _) eqn:Es; [|reflexivity].
      apply strip_blank in Es. congruence.
  - intros key Hkey. destruct (get_api_key_stripped _ _ Hkey) as [Hne [s ->]].
    destruct (strip_trimmed s) as [Hfirst Hlast]. split; [|exact Hlast].
    destruct (Py.strip s) as [|c r] eqn:E; [congruence|]. eauto.
Qed.

(** X2. The Authorization header is trimmed before the comparison, and the
    "Bearer " prefix is optional: when X-Api-Key is absent or empty, a header
    that holds the secret with or without the prefix, padded with any
    whitespace, passes the gate (without the prefix, provided the secret does
    not itself start with "Bearer "). *)
Theorem authorization_header_forms (environ : gmap string string)
    {S : Type} (key l r : string) (x_api_key : option string) (w : world S) :
  get_api_key environ = Ret key ->
  all_space l = true -> all_space r = true ->
  x_api_key = None \/ x_api_key = Some "" ->
  require_api_key environ x_api_key (Some (l ++ ("Bearer " ++ key) ++ r)) w = (Ret tt, w)
  /\ (Py.startswith "Bearer " key = false ->
      require_api_key environ x_api_key (Some (l ++ key ++ r)) w = (Ret tt, w)).
Proof.
  intros Hkey Hl Hr Hx.
  destruct (get_api_key_stripped _ _ Hkey) as [Hne [s Hs]].
  destruct key as [|c t]; [congruence|].
  assert (Py.is_space c = false) as Hc.
  { eapply (proj1 (strip_trimmed s)). by rewrite <- Hs. }
  assert (Py.rstrip (String c t) = String c t) as Hfix.
  { rewrite Hs. apply strip_fixed. }
  assert (forall a, candidate x_api_key a = bearer_of a) as Hcand.
  { intros a. by destruct Hx as [-> | ->]. }
  split; [|intros Hraw]; rewrite require_api_key_spec, Hkey, Hcand; unfold bearer_of.
  - assert (Py.or_else (Some (l ++ ("Bearer " ++ String c t) ++ r)) ""
            = l ++ String "B" ("earer " ++ String c t) ++ r) as ->.
    { unfold Py.or_else. destruct l; reflexivity. }
    rewrite strip_padded; try done.
    + change (String "B" ("earer " ++ String c t)) with ("Bearer " ++ String c t).
      by rewrite removeprefix_app, String.eqb_refl.
    + change (String "B" ("earer " ++ String c t)) with ("Bearer " ++ String c t).
      rewrite rstrip_app; rewrite Hfix; [reflexivity | discriminate].
  - assert (Py.or_else (Some (l ++ String c t ++ r)) "" = l ++ String c t ++ r) as ->.
    { unfold Py.or_else. destruct l; reflexivity. }
    rewrite strip_padded; try done.
    unfold Py.removeprefix. rewrite Hraw. by rewrite String.eqb_refl.
Qed.

(** ** Further properties: building the client *)

Section Credentials.

Context {S : Type}.
Variable A : OAuth.
Variable environ : gmap string string.

Ltac run_client :=
  unfold get_drive_service, load_stored_credentials, refresh_if_expired,
    run_interactive_flow, persist_token, path_exists, read_text, write_text,
    bind, ret, raise, lift.

(** X3. A token blob that is set but does not load is fatal: the error of
    the loader is raised (a ValueError as the fixed "is set but invalid"
    message, anything else as it is) and there is no fallback to the token
    file or to the interactive flow; nothing is written. *)
Theorem malformed_token_blob_is_fatal (e : exn) (w : world S) :
  token_json environ <> "" ->
  from_authorized_user_info A (token_json environ) = Raise e ->
  get_drive_service A environ w =
    (Raise (if is_ValueError e
            then ValueError "GOOGLE_DRIVE_TOKEN_JSON is set but invalid. Paste the full contents of token.json (from a local OAuth run)."
            else e), w).
Proof.
  intros Hset Hload. run_client.
  destruct (token_json environ) eqn:E; [congruence|]. simpl.
  rewrite Hload. by destruct (is_ValueError e).
Qed.

(** X4. Valid stored credentials are used as they are, and the token blob
    has priority over the token file: the client is built from the blob when
    it is set (the file is not looked at), from the token file otherwise, with
    no refresh, no interactive flow and no write. *)
Theorem valid_stored_credentials_are_used (c : credentials) (w : world S) :
  (token_json environ <> ""
   /\ from_authorized_user_info A (token_json environ) = Ret c)
  \/ (token_json environ = ""
      /\ exists content, fs w !! TOKEN_FILE = Some content
                         /\ from_authorized_user_file A content = Ret c) ->
  valid c = true ->
  get_drive_service A environ w = (Ret {| svc_credentials := c |}, w).
Proof.
  intros [[Hset Hload] | [Hunset (content & Hfile & Hload)]] Hvalid; run_client.
  - destruct (token_json environ) eqn:E; [congruence|]. simpl.
    rewrite Hload. simpl. rewrite Hvalid. simpl. by rewrite Hvalid.
  - rewrite Hunset. cbn [Py.truthy]. rewrite Hfile. simpl. rewrite Hfile. simpl.
    rewrite Hload. simpl.
    rewrite Hvalid. simpl. by rewrite Hvalid.
Qed.

(** X5. Stored credentials that are expired and carry a refresh token are
    refreshed: when the refreshed credentials are valid the client is built
    from them and nothing is written (the refreshed token is not saved); when
    the refresh raises, that exception is the outcome. *)
Theorem expired_credentials_are_refreshed (c : credentials) (t : string) (w : world S) :
  fst (load_stored_credentials A environ w) = Ret (Some c) ->
  valid c = false -> expired c = true ->
  refresh_token c = Some t -> t <> "" ->
  match refresh A c with
  | Ret c' =>
      valid c' = true ->
      get_drive_service A environ w = (Ret {| svc_credentials := c' |}, w)
  | Raise e => get_drive_service A environ w = (Raise e, w)
  end.
Proof.
  intros Hload Hinvalid Hexpired Htoken Hne.
  destruct (load_stored_credentials A environ w) as [r0 w0] eqn:E0.
  pose proof (load_stored_credentials_frame _ _ _ _ _ E0) as ->.
  simpl in Hload. subst r0.
  destruct t as [|a t]; [congruence|].
  destruct (refresh A c) as [c'|e] eqn:Er; [intros Hvalid|];
    unfold get_drive_service, bind; rewrite E0;
    unfold refresh_if_expired; rewrite Hinvalid, Hexpired, Htoken; simpl;
    unfold bind, lift, ret; rewrite Er; [by rewrite Hvalid | reflexivity].
Qed.

(** X6. With no token blob, no token file, no client-secret blob and no
    client-secret file (at GOOGLE_APPLICATION_CREDENTIALS, or credentials.json
    next to the script), building the client raises FileNotFoundError and
    writes nothing. *)
Theorem no_credential_source (w : world S) :
  token_json environ = "" ->
  fs w !! TOKEN_FILE = None ->
  all_space (Py.or_else (environ !! "GOOGLE_DRIVE_CREDENTIALS_JSON") "") = true ->
  fs w !! Py.or_else (environ !! "GOOGLE_APPLICATION_CREDENTIALS") CREDENTIALS_FILE = None ->
  get_drive_service A environ w =
    (Raise (FileNotFoundError "Google OAuth credentials not found. For Railway: set GOOGLE_DRIVE_TOKEN_JSON (full token.json from a local OAuth run). For local first run: save credentials.json here or set GOOGLE_DRIVE_CREDENTIALS_JSON."), w).
Proof.
  intros Hblob Hfile Hjson Hpath. apply strip_blank in Hjson. run_client.
  rewrite Hblob. cbn [Py.truthy]. rewrite Hfile. simpl. rewrite Hjson. simpl.
  rewrite Hpath. simpl. by rewrite andb_false_r.
Qed.

(** X7. Building the client never talks to the storage provider, and of the
    local files it can only change the token file: every other path keeps its
    content, an existing token file is never overwritten, and when the
    function raises nothing has been written at all. *)
Theorem get_drive_service_effects (w w' : world S) (r : result service) :
  get_drive_service A environ w = (r, w') ->
  store w' = store w /\ calls w' = calls w
  /\ (forall p, p <> TOKEN_FILE -> fs w' !! p = fs w !! p)
  /\ (is_Some (fs w !! TOKEN_FILE) -> fs w' = fs w)
  /\ (forall e, r = Raise e -> w' = w).
Proof.
  destruct w as [f s cs]. run_client. simpl. intros H.
  repeat (case_match; simplify_eq; simpl in * );
    repeat split; auto; try discriminate;
    try (intros p Hp; by rewrite lookup_insert_ne);
    try (intros [? ?]; congruence);
    intros Hsome; exfalso;
    match goal with
    | H : negb (bool_decide _) = true |- _ =>
        apply negb_true_iff, bool_decide_eq_false in H; contradiction
    end.
Qed.

End Credentials.

(** ** Further properties: the handlers, against any provider *)

Section Handlers.

Context {S : Type}.
Variable P : Provider S.
Variable A : OAuth.
Variable environ : gmap string string.
Variable encode_utf8 decode_utf8_replace : string -> string.

Local Abbreviation serve_one := (app P A environ encode_utf8 decode_utf8_replace).

Lemma gate_outcome (x_api_key authorization : option string) (w : world S) :
  (get_api_key environ = Ret (candidate x_api_key authorization)
   /\ require_api_key environ x_api_key authorization w = (Ret tt, w))
  \/ (get_api_key environ <> Ret (candidate x_api_key authorization)
      /\ exists e, require_api_key environ x_api_key authorization w = (Raise e, w)).
Proof.
  rewrite require_api_key_spec.
  destruct (get_api_key environ) as [key|e] eqn:Hkey.
  - destruct (String.eqb_spec (candidate x_api_key authorization) key) as [->|Hne].
    + by left.
    + right. split; [congruence | eauto].
  - right. split; [discriminate | eauto].
Qed.

Lemma respond_raise {R} (wrap : R -> content) (m : M S R) (w w' : world S) (e : exn) :
  m w = (Raise e, w') ->
  snd (respond wrap m w) = w' /\ forall body, fst (respond wrap m w) <> OK body.
Proof. intros H. unfold respond. rewrite H. by destruct e. Qed.

(** X8. The gate is sound on every gated route and against every provider:
    a request is answered with 200, or gets as far as touching the provider
    or the local files, only if the candidate taken from its headers is the
    configured secret. *)
Theorem gated_success_requires_secret
    (r : request) (x_api_key authorization : option string)
    (w w' : world S) (resp : response) :
  headers_of r = Some (x_api_key, authorization) ->
  serve_one r w = (resp, w') ->
  (exists body, resp = OK body) \/ calls w' <> calls w \/ fs w' <> fs w ->
  get_api_key environ = Ret (candidate x_api_key authorization).
Proof.
  intros Hh Hrun Hsome.
  destruct (gate_outcome x_api_key authorization w) as [[Hok _] | [_ [e Hgate]]];
    [assumption | exfalso].
  assert (w' = w /\ forall body, resp <> OK body) as [-> Hno].
  { destruct r as [|x a t ps|f x a|x a b]; simpl in Hh, Hrun; simplify_eq.
    - destruct (validate_page_size ps) as [n|]; [|by simplify_eq].
      pose proof (respond_raise ListJSON
        (list_files P A environ x_api_key authorization t n) w w e) as Hr.
      rewrite Hrun in Hr. apply Hr. unfold list_files, bind. by rewrite Hgate.
    - pose proof (respond_raise PlainTextResponse
        (read_file P A environ decode_utf8_replace f x_api_key authorization) w w e) as Hr.
      rewrite Hrun in Hr. apply Hr. unfold read_file, bind. by rewrite Hgate.
    - destruct (validate_body b) as [b'|]; [|by simplify_eq].
      pose proof (respond_raise WriteJSON
        (write_file P A environ encode_utf8 b' x_api_key authorization) w w e) as Hr.
      rewrite Hrun in Hr. apply Hr. unfold write_file, bind. by rewrite Hgate. }
  destruct Hsome as [[body ->] | [Hc | Hf]]; [by eapply Hno | done | done].
Qed.

(** [read_file] after the gate, the client and the folder. *)
Lemma read_file_after_folder
    (file_id key folder_id : string) (x_api_key authorization : option string)
    (svc : service) (w w1 w2 : world S) :
  get_api_key environ = Ret key ->
  candidate x_api_key authorization = key ->
  get_drive_service A environ w = (Ret svc, w1) ->
  get_playground_folder_id P environ svc w1 = (Ret folder_id, w2) ->
  read_file P A environ decode_utf8_replace file_id x_api_key authorization w =
    bind (get_execute P svc file_id "id, name, mimeType, parents")
      (fun meta =>
         if negb (Py.contains folder_id (default [] (parents meta))) then
           raise (HTTPException 403
             "File is not a direct child of the Playground folder. Use /list to get file IDs.")
         else
           try_except
             (bind (get_media_download P svc file_id)
                (fun buf => ret (decode_utf8_replace buf)))
             (fun e => raise (HTTPException 404 (exn_str e)))) w2.
Proof.
  intros Hkey Hcand Hsvc Hfolder. unfold read_file. unfold bind at 1.
  rewrite require_api_key_spec, Hkey, Hcand, String.eqb_refl.
  unfold bind at 1. rewrite Hsvc. unfold bind at 1. by rewrite Hfolder.
Qed.

(** X9. A read of a file whose returned parents include the scope folder is
    decided by the download: its bytes, decoded with replacement, are the
    body of a 200 response; any exception of the download becomes a 404 whose
    detail is the text of that exception. Exactly two provider calls follow
    the resolution: the metadata lookup and the download. *)
Theorem read_in_scope_outcome
    (file_id key folder_id : string) (x_api_key authorization : option string)
    (svc : service) (meta : file_resource) (w w1 w2 : world S) (s3 s4 : S)
    (download : result string) :
  get_api_key environ = Ret key ->
  candidate x_api_key authorization = key ->
  get_drive_service A environ w = (Ret svc, w1) ->
  get_playground_folder_id P environ svc w1 = (Ret folder_id, w2) ->
  files_get P svc file_id "id, name, mimeType, parents" (store w2) = (Ret meta, s3) ->
  folder_id ∈ default [] (parents meta) ->
  files_get_media P svc file_id s3 = (download, s4) ->
  serve_one (GET_files_content file_id x_api_key authorization) w =
    (match download with
     | Ret bytes => OK (PlainTextResponse (decode_utf8_replace bytes))
     | Raise e => ErrorResponse 404 (exn_str e)
     end,
     {| fs := fs w2; store := s4;
        calls := (calls w2 ++ [FilesGet file_id "id, name, mimeType, parents";
                               FilesGetMedia file_id])%list |}).
Proof.
  intros Hkey Hcand Hsvc Hfolder Hget Hin Hmedia.
  apply contains_elem_of in Hin.
  unfold app, respond.
  rewrite (read_file_after_folder _ _ _ _ _ _ _ _ _ Hkey Hcand Hsvc Hfolder).
  unfold bind at 1, get_execute, execute. rewrite Hget, Hin. simpl.
  unfold try_except, bind, get_media_download, execute, ret, raise. simpl.
  rewrite Hmedia. rewrite <- app_assoc. by destruct download.
Qed.

(** X10. An exception of the metadata lookup (an unknown identifier, for
    one) is not caught: the lookup is outside the handler's [try], so the
    request ends as an unhandled error (500) rather than 403 or 404, and no
    download is attempted. *)
Theorem read_metadata_failure_is_uncaught
    (file_id key folder_id cls msg : string) (x_api_key authorization : option string)
    (svc : service) (w w1 w2 : world S) (s3 : S) :
  get_api_key environ = Ret key ->
  candidate x_api_key authorization = key ->
  get_drive_service A environ w = (Ret svc, w1) ->
  get_playground_folder_id P environ svc w1 = (Ret folder_id, w2) ->
  files_get P svc file_id "id, name, mimeType, parents" (store w2)
    = (Raise (LibraryError cls msg), s3) ->
  serve_one (GET_files_content file_id x_api_key authorization) w =
    (InternalServerError (LibraryError cls msg),
     {| fs := fs w2; store := s3;
        calls := (calls w2 ++ [FilesGet file_id "id, name, mimeType, parents"])%list |}).
Proof.
  intros Hkey Hcand Hsvc Hfolder Hget.
  unfold app, respond.
  rewrite (read_file_after_folder _ _ _ _ _ _ _ _ _ Hkey Hcand Hsvc Hfolder).
  unfold bind, get_execute, execute. by rewrite Hget.
Qed.

End Handlers.

(** ** Further properties: what the read routes leave alone *)

Section Preservation.

Context {S : Type}.
Variable Rel : world S -> world S -> Prop.
Hypothesis Rel_refl : forall w, Rel w w.
Hypothesis Rel_trans : forall w1 w2 w3, Rel w1 w2 -> Rel w2 w3 -> Rel w1 w3.

Lemma preserves_ret {R} (a : R) : preserves Rel (ret a).
Proof. intros w r w' H. unfold ret in H. by simplify_eq. Qed.

Lemma preserves_raise {R} (e : exn) : preserves Rel (raise (A := R) e).
Proof. intros w r w' H. unfold raise in H. by simplify_eq. Qed.

Lemma preserves_bind {R1 R2} (m : M S R1) (k : R1 -> M S R2) :
  preserves Rel m -> (forall a, preserves Rel (k a)) -> preserves Rel (bind m k).
Proof.
  intros Hm Hk w r w' H. unfold bind in H.
  destruct (m w) as [[a|e] w1] eqn:E.
  - eapply Rel_trans; [eapply Hm, E | eapply Hk, H].
  - simplify_eq. eapply Hm, E.
Qed.

Lemma preserves_try_except {R} (m : M S R) (h : exn -> M S R) :
  preserves Rel m -> (forall e, preserves Rel (h e)) -> preserves Rel (try_except m h).
Proof.
  intros Hm Hh w r w' H. unfold try_except in H.
  destruct (m w) as [[a|e] w1] eqn:E.
  - simplify_eq. eapply Hm, E.
  - eapply Rel_trans; [eapply Hm, E | eapply Hh, H].
Qed.

Lemma preserves_respond {R} (wrap : R -> content) (m : M S R) (w w' : world S) resp :
  preserves Rel m -> respond wrap m w = (resp, w') -> Rel w w'.
Proof.
  intros Hm H. unfold respond in H.
  destruct (m w) as [[a|e] w1] eqn:E; [|destruct e]; simplify_eq; eapply Hm, E.
Qed.

End Preservation.

Section ReadHandlers.

Context {S : Type}.
Variable P : Provider S.
Variable A : OAuth.
Variable environ : gmap string string.
Variable decode_utf8_replace : string -> string.
Variable Rel : world S -> world S -> Prop.
Hypothesis Rel_refl : forall w, Rel w w.
Hypothesis Rel_trans : forall w1 w2 w3, Rel w1 w2 -> Rel w2 w3 -> Rel w1 w3.
Hypothesis client_ok : preserves Rel (get_drive_service A environ).
Hypothesis folder_ok : forall svc, preserves Rel (get_playground_folder_id P environ svc).
Hypothesis list_ok : forall svc r, preserves Rel (list_execute P svc r).
Hypothesis get_ok : forall svc i f, preserves Rel (get_execute P svc i f).
Hypothesis media_ok : forall svc i, preserves Rel (get_media_download P svc i).

Lemma require_api_key_preserves (x_api_key authorization : option string) :
  preserves Rel (require_api_key (S := S) environ x_api_key authorization).
Proof.
  intros w r w' H. rewrite require_api_key_spec in H. by simplify_eq.
Qed.

Lemma list_files_preserves (x_api_key authorization page_token : option string) (n : Z) :
  preserves Rel (list_files P A environ x_api_key authorization page_token n).
Proof.
  unfold list_files.
  apply preserves_bind; [done | apply require_api_key_preserves | intros _].
  apply preserves_bind; [done | apply client_ok | intros svc].
  apply preserves_bind; [done | apply folder_ok | intros folder_id].
  apply preserves_bind; [done | apply list_ok | intros result].
  by apply preserves_ret.
Qed.

Lemma read_file_preserves (file_id : string) (x_api_key authorization : option string) :
  preserves Rel (read_file P A environ decode_utf8_replace file_id x_api_key authorization).
Proof.
  unfold read_file.
  apply preserves_bind; [done | apply require_api_key_preserves | intros _].
  apply preserves_bind; [done | apply client_ok | intros svc].
  apply preserves_bind; [done | apply folder_ok | intros folder_id].
  apply preserves_bind; [done | apply get_ok | intros meta].
  destruct (negb _); [by apply preserves_raise|].
  apply preserves_try_except; [done | | intros e; by apply preserves_raise].
  apply preserves_bind; [done | apply media_ok | intros buf].
  by apply preserves_ret.
Qed.

Lemma read_routes_preserve (encode_utf8 : string -> string) (r : request)
    (w w' : world S) (resp : response) :
  (forall x a b, r <> POST_write x a b) ->
  app P A environ encode_utf8 decode_utf8_replace r w = (resp, w') ->
  Rel w w'.
Proof.
  intros Hr H. destruct r as [|x a t ps|f x a|x a b]; simpl in H.
  - by simplify_eq.
  - destruct (validate_page_size ps); [|by simplify_eq].
    eapply preserves_respond; [apply list_files_preserves | exact H].
  - eapply preserves_respond; [apply read_file_preserves | exact H].
  - by destruct (Hr x a b).
Qed.

End ReadHandlers.

Lemma only_reads_refl {S} (w : world S) : only_reads w w.
Proof. exists []. by rewrite app_nil_r. Qed.

Lemma only_reads_trans {S} (w1 w2 w3 : world S) :
  only_reads w1 w2 -> only_reads w2 w3 -> only_reads w1 w3.
Proof.
  intros (c1 & H1 & F1) (c2 & H2 & F2). exists (c1 ++ c2)%list.
  rewrite H2, H1, <- app_assoc. split; [done | by apply Forall_app].
Qed.

Lemma execute_only_reads {S R} (c : call) (op : S -> result R * S) :
  is_read_call c -> preserves only_reads (execute c op).
Proof.
  intros Hc w r w' H. unfold execute in H. destruct (op (store w)). simplify_eq.
  exists [c]. split; [done | by constructor].
Qed.

(** X11. The list, read and health routes never write to the provider:
    whatever the outcome of the request, against any provider, every provider
    call it makes is a list, a metadata lookup or a download. *)
Theorem read_routes_only_read {S : Type} (P : Provider S) (A : OAuth)
    (environ : gmap string string) (encode_utf8 decode_utf8_replace : string -> string)
    (r : request) (w w' : world S) (resp : response) :
  (forall x a b, r <> POST_write x a b) ->
  app P A environ encode_utf8 decode_utf8_replace r w = (resp, w') ->
  exists cs, calls w' = (calls w ++ cs)%list /\ Forall is_read_call cs.
Proof.
  apply (read_routes_preserve P A environ decode_utf8_replace only_reads).
  - apply only_reads_refl.
  - apply only_reads_trans.
  - intros w0 r0 w0' H. apply get_drive_service_frame in H as [_ H].
    exists []. by rewrite app_nil_r.
  - intros svc w0 r0 w0' H.
    apply get_playground_folder_id_frame in H as [_ (cs & Hcs & Hall)].
    exists cs. split; [done|]. eapply Forall_impl; [exact Hall|]. by intros c [lr ->].
  - intros svc lr. by apply execute_only_reads.
  - intros svc i f. by apply execute_only_reads.
  - intros svc i. by apply execute_only_reads.
Qed.

(** X12. On the reference provider, whose list, lookup and download change
    nothing, the list, read and health routes leave every stored file as it
    was, whatever the outcome of the request. *)
Theorem read_routes_keep_reference_store (A : OAuth)
    (environ : gmap string string) (encode_utf8 decode_utf8_replace : string -> string)
    (r : request) (w w' : world (list Drive.drive_file)) (resp : response) :
  (forall x a b, r <> POST_write x a b) ->
  app Drive.provider A environ encode_utf8 decode_utf8_replace r w = (resp, w') ->
  store w' = store w.
Proof.
  apply (read_routes_preserve Drive.provider A environ decode_utf8_replace same_store).
  - done.
  - unfold same_store. congruence.
  - intros w0 r0 w0' H. by apply get_drive_service_frame in H as [H _].
  - intros svc w0 r0 w0' H. unfold same_store, get_playground_folder_id in *.
    case_match; [unfold ret in H; by simplify_eq|].
    pose proof (walk_reference_read_only svc PLAYGROUND_PATH "root" w0) as Hs.
    by rewrite H in Hs.
  - intros svc lr w0 r0 w0' H. unfold list_execute, execute in H. simpl in H.
    pose proof (reference_list_read_only svc lr (store w0)) as Hs.
    destruct (Drive.list svc lr (store w0)). unfold same_store. by simplify_eq.
  - intros svc i f w0 r0 w0' H. unfold get_execute, execute in H. simpl in H.
    unfold Drive.get in H. unfold same_store. by repeat (case_match; simplify_eq).
  - intros svc i w0 r0 w0' H. unfold get_media_download, execute in H. simpl in H.
    unfold Drive.get_media in H. unfold same_store. by repeat (case_match; simplify_eq).
Qed.

(** ** Further properties: reads, the walk and failed updates *)

Section Outcomes.

Context {S : Type}.
Variable P : Provider S.
Variable A : OAuth.
Variable environ : gmap string string.
Variable encode_utf8 decode_utf8_replace : string -> string.

(** X13. Content is only ever returned for a file of the scope folder: if a
    read is answered with 200, then the client was built, the folder
    resolved, the metadata lookup returned parents that include that folder,
    and the body is the decoded download of that same identifier. *)
Theorem read_success_implies_in_scope
    (file_id : string) (x_api_key authorization : option string)
    (w w' : world S) (body : content) :
  app P A environ encode_utf8 decode_utf8_replace
      (GET_files_content file_id x_api_key authorization) w = (OK body, w') ->
  exists svc w1 folder_id w2 meta s3 bytes s4,
    get_drive_service A environ w = (Ret svc, w1)
    /\ get_playground_folder_id P environ svc w1 = (Ret folder_id, w2)
    /\ files_get P svc file_id "id, name, mimeType, parents" (store w2) = (Ret meta, s3)
    /\ folder_id ∈ default [] (parents meta)
    /\ files_get_media P svc file_id s3 = (Ret bytes, s4)
    /\ body = PlainTextResponse (decode_utf8_replace bytes).
Proof.
  intros Hrun. unfold app, respond in Hrun.
  destruct (read_file _ _ _ _ _ _ _ w) as [[text|e] wf] eqn:Hr;
    [|destruct e; discriminate].
  simplify_eq. unfold read_file in Hr. unfold bind at 1 in Hr.
  rewrite require_api_key_spec in Hr.
  destruct (get_api_key environ) as [key|e]; [|discriminate].
  destruct (String.eqb _ key); [|discriminate].
  unfold bind at 1 in Hr.
  destruct (get_drive_service A environ w) as [[svc|e] w1] eqn:Hsvc; [|discriminate].
  unfold bind at 1 in Hr.
  destruct (get_playground_folder_id P environ svc w1) as [[folder_id|e] w2] eqn:Hf;
    [|discriminate].
  unfold bind at 1, get_execute, execute in Hr.
  destruct (files_get P svc file_id _ (store w2)) as [[meta|e] s3] eqn:Hget;
    [|discriminate].
  destruct (Py.contains folder_id (default [] (parents meta))) eqn:Hin;
    simpl in Hr; [|discriminate].
  unfold try_except, bind, get_media_download, execute, ret in Hr. simpl in Hr.
  destruct (files_get_media P svc file_id s3) as [[bytes|e] s4] eqn:Hmedia;
    [|discriminate].
  simplify_eq. apply contains_elem_of in Hin.
  by exists svc, w1, folder_id, w2, meta, s3, bytes, s4.
Qed.



(** X15. An update is not atomic and is not rolled back: when the lookup
    finds a file and the rename succeeds but the media update raises, the
    exception is the outcome of the handler, the provider is left in the
    state after the rename and the failed upload, and no further call is
    made. *)
Theorem failed_upload_is_not_rolled_back
    (body : WriteBody) (x_api_key authorization : option string)
    (key folder_id : string) (svc : service) (existing : list_response)
    (f : file_resource) (rest : list file_resource) (e : exn)
    (w w1 w2 : world S) (s3 s4 s5 : S) :
  get_api_key environ = Ret key ->
  candidate x_api_key authorization = key ->
  get_drive_service A environ w = (Ret svc, w1) ->
  get_playground_folder_id P environ svc w1 = (Ret folder_id, w2) ->
  let lookup :=
    {| q := existing_query folder_id (wb_name body); spaces := None;
       fields := "files(id)"; pageSize := 1; pageToken := None |} in
  let rename :=
    Some {| b_name := Some (wb_name body); b_mimeType := None; b_parents := None |} in
  let media :=
    Some {| m_bytes := encode_utf8 (wb_content body); m_mimetype := wb_mime_type body;
            m_resumable := false |} in
  files_list P svc lookup (store w2) = (Ret existing, s3) ->
  default [] (files existing) = f :: rest ->
  files_update P svc (id f) rename None s3 = (Ret tt, s4) ->
  files_update P svc (id f) None media s4 = (Raise e, s5) ->
  write_file P A environ encode_utf8 body x_api_key authorization w =
    (Raise e,
     {| fs := fs w2; store := s5;
        calls := (calls w2 ++ [FilesList lookup; FilesUpdate (id f) rename None;
                               FilesUpdate (id f) None media])%list |}).
Proof.
  intros Hkey Hcand Hsvc Hfolder lookup rename media Hlist Hfound Hrename Hupload.
  rewrite (write_file_after_lookup P A environ encode_utf8 _ _ _ _ _ _ _ _ _ _ _
             Hkey Hcand Hsvc Hfolder Hlist).
  rewrite Hfound. unfold bind, update_execute, execute. simpl.
  fold rename. rewrite Hrename. simpl. fold media. rewrite Hupload.
  by rewrite <- !app_assoc.
Qed.

End Outcomes.

(** ** Further properties: the service on the reference provider *)

Lemma parse_scope_query (folder_id : string) :
  Drive.plain folder_id = true ->
  Drive.parse_query (scope_query folder_id) =
    Some [Drive.InParents folder_id; Drive.TrashedIs false].
Proof.
  intros Hf. unfold Drive.parse_query, scope_query.
  rewrite !append_cons, !append_nil_l. simpl.
  rewrite (lex_literal _ _ Hf). reflexivity.
Qed.

Lemma parse_folder_query (parent n : string) :
  Drive.plain parent = true -> Drive.plain n = true ->
  Drive.parse_query (folder_query parent n) =
    Some [Drive.InParents parent; Drive.NameIs n;
          Drive.MimeTypeIs "application/vnd.google-apps.folder"; Drive.TrashedIs false].
Proof.
  intros Hp Hn. unfold Drive.parse_query, folder_query.
  rewrite !append_cons, !append_nil_l. simpl.
  rewrite (lex_literal _ _ Hp). simpl.
  rewrite (lex_literal _ _ Hn). reflexivity.
Qed.

Lemma get_playground_folder_id_reference_store (environ : gmap string string)
    (svc : service) (w w' : world (list Drive.drive_file)) (r : result string) :
  get_playground_folder_id Drive.provider environ svc w = (r, w') -> store w' = store w.
Proof.
  unfold get_playground_folder_id. case_match.
  - unfold ret. intros Hr. by simplify_eq.
  - intros Hr. pose proof (walk_reference_read_only svc PLAYGROUND_PATH "root" w) as Hs.
    by rewrite Hr in Hs.
Qed.

(** X16. On the reference provider a successful list answers with files of
    the scope folder only: each listed entry is a stored file that has the
    resolved folder among its parents and is not trashed, and there are at
    most page_size entries. *)
Theorem list_returns_scope_children (A : OAuth) (environ : gmap string string)
    (encode_utf8 decode_utf8_replace : string -> string)
    (x_api_key authorization page_token : option string) (n : Z)
    (folder_id : string) (svc : service)
    (w w1 w2 w' : world (list Drive.drive_file)) (body : content) :
  get_drive_service A environ w = (Ret svc, w1) ->
  get_playground_folder_id Drive.provider environ svc w1 = (Ret folder_id, w2) ->
  Drive.plain folder_id = true ->
  app Drive.provider A environ encode_utf8 decode_utf8_replace
      (GET_list x_api_key authorization page_token (Some n)) w = (OK body, w') ->
  exists lr,
    body = ListJSON lr
    /\ (Z.of_nat (length (lr_files lr)) <= n)%Z
    /\ Forall (fun entry =>
                 exists f, f ∈ store w /\ in_scope folder_id f = true
                           /\ id entry = Drive.f_id f)
              (lr_files lr).
Proof.
  intros Hsvc Hfolder Hplain Hrun.
  assert (store w2 = store w) as Hstore.
  { apply get_playground_folder_id_reference_store in Hfolder.
    apply get_drive_service_frame in Hsvc as [Hs _]. congruence. }
  cbn [app validate_page_size] in Hrun.
  destruct ((1 <=? n)%Z && (n <=? 100)%Z) eqn:Hn; [|discriminate].
  apply andb_true_iff in Hn as [H1 H100]. apply Z.leb_le in H1, H100.
  unfold respond in Hrun.
  destruct (list_files _ _ _ _ _ _ _ w) as [[lr|e] wf] eqn:Hl;
    [|destruct e; discriminate].
  simplify_eq. exists lr. split; [reflexivity|].
  unfold list_files in Hl. unfold bind at 1 in Hl.
  rewrite require_api_key_spec in Hl.
  destruct (get_api_key environ) as [key|e]; [|discriminate].
  destruct (String.eqb _ key); [|discriminate].
  unfold bind at 1 in Hl. rewrite Hsvc in Hl.
  unfold bind at 1 in Hl. rewrite Hfolder in Hl.
  unfold bind, list_execute, execute, ret in Hl. cbn [files_list Drive.provider] in Hl.
  unfold Drive.list in Hl. cbn [q pageSize pageToken fields] in Hl.
  change ("'" ++ folder_id ++ "' in parents and trashed = false")
    with (scope_query folder_id) in Hl.
  rewrite (parse_scope_query _ Hplain), Hstore in Hl.
  destruct (Drive.offset_of _) as [off|]; [|discriminate].
  destruct ((1 <=? n)%Z && (n <=? 1000)%Z); [|discriminate].
  simplify_eq. cbn [lr_files files default from_option Datatypes.id].
  split.
  - rewrite length_fmap, length_take. lia.
  - apply Forall_fmap, Forall_take, Forall_drop, Forall_forall.
    intros f Hf. apply list_elem_of_filter in Hf as [Hm Hin].
    exists f. split; [assumption|]. split; [|reflexivity].
    unfold Drive.matches in Hm. simpl in Hm. unfold in_scope.
    destruct (Py.contains _ _), (Drive.f_trashed f); simpl in *; congruence.
Qed.

Lemma walk_reference_step (svc : service) (parent n : string) (rest : list string)
    (w : world (list Drive.drive_file)) :
  Drive.plain parent = true -> Drive.plain n = true ->
  exists w1,
    store w1 = store w
    /\ walk Drive.provider svc parent (n :: rest) w =
       match List.find (folder_child parent n) (store w) with
       | Some f => walk Drive.provider svc (Drive.f_id f) rest w1
       | None => (Raise (ValueError (folder_not_found n)), w1)
       end.
Proof.
  intros Hp Hn. eexists. split; [|cbn [walk]; unfold bind, list_execute, execute].
  2: { cbn [files_list Drive.provider]. unfold Drive.list.
       cbn [q pageSize pageToken fields default from_option Datatypes.id].
       rewrite (parse_folder_query _ _ Hp Hn). simpl.
       rewrite (list_filter_iff _ (fun f => folder_child parent n f = true)).
       - change (Z.to_nat 1) with 1%nat. rewrite drop_0, first_of_filter.
         destruct (List.find _ (store w)); reflexivity.
       - intros f. unfold folder_child.
         destruct (Py.contains _ _), (String.eqb (Drive.f_name f) n),
           (String.eqb (Drive.f_mimeType f) _), (Drive.f_trashed f); simpl; tauto. }
  reflexivity.
Qed.

(** X17. On a reference provider whose identifiers need no escaping, the
    resolver walks Personal / AI Research / OpenClaw Playground by taking, at
    each step, the first non-trashed folder of that exact name under the
    folder found before, starting at "root": it returns the identifier of the
    third one, or raises the ValueError that names the first step without a
    match. *)
Theorem folder_resolution_on_reference (environ : gmap string string) (svc : service)
    (w : world (list Drive.drive_file)) :
  all_space (Py.or_else (environ !! "DRIVE_PLAYGROUND_FOLDER_ID") "") = true ->
  Forall (fun f => Drive.plain (Drive.f_id f) = true) (store w) ->
  fst (get_playground_folder_id Drive.provider environ svc w) =
    match List.find (folder_child "root" "Personal") (store w) with
    | None => Raise (ValueError (folder_not_found "Personal"))
    | Some f1 =>
        match List.find (folder_child (Drive.f_id f1) "AI Research") (store w) with
        | None => Raise (ValueError (folder_not_found "AI Research"))
        | Some f2 =>
            match List.find (folder_child (Drive.f_id f2) "OpenClaw Playground")
                    (store w) with
            | None => Raise (ValueError (folder_not_found "OpenClaw Playground"))
            | Some f3 => Ret (Drive.f_id f3)
            end
        end
    end.
Proof.
  intros Hblank Hids. apply strip_blank in Hblank.
  assert (forall p f, List.find p (store w) = Some f -> Drive.plain (Drive.f_id f) = true)
    as Hplain.
  { intros p f Hf. apply find_some in Hf as [Hin _].
    rewrite Forall_forall in Hids. apply Hids. by apply list_elem_of_In. }
  unfold get_playground_folder_id, PLAYGROUND_PATH. rewrite Hblank. cbn [Py.truthy].
  destruct (walk_reference_step svc "root" "Personal"
              ["AI Research"; "OpenClaw Playground"] w eq_refl eq_refl) as (w1 & Hs1 & ->).
  destruct (List.find (folder_child "root" "Personal") (store w)) as [f1|] eqn:E1;
    [|reflexivity].
  destruct (walk_reference_step svc (Drive.f_id f1) "AI Research"
              ["OpenClaw Playground"] w1 (Hplain _ _ E1) eq_refl) as (w2 & Hs2 & ->).
  rewrite Hs1.
  destruct (List.find (folder_child (Drive.f_id f1) "AI Research") (store w))
    as [f2|] eqn:E2; [|reflexivity].
  destruct (walk_reference_step svc (Drive.f_id f2) "OpenClaw Playground"
              [] w2 (Hplain _ _ E2) eq_refl) as (w3 & Hs3 & ->).
  rewrite Hs2, Hs1.
  destruct (List.find (folder_child (Drive.f_id f2) "OpenClaw Playground") (store w))
    as [f3|] eqn:E3; reflexivity.
Qed.








(** ** The further properties at concrete inputs *)

Lemma get_api_key_blank_or_trimmed_witness :
  (exists c r, "k" = String c r /\ Py.is_space c = false)
  /\ (forall p c, "k" = p ++ String c "" -> Py.is_space c = false).
Proof.
  apply (proj2 (get_api_key_blank_or_trimmed Cases.env_padded) "k").
  vm_compute. reflexivity.
Defined.

Lemma authorization_header_forms_witness :
  require_api_key Fixture.env None (Some ("  " ++ ("Bearer " ++ "k") ++ " ")) Fixture.world0
    = (Ret tt, Fixture.world0)
  /\ (Py.startswith "Bearer " "k" = false ->
      require_api_key Fixture.env None (Some ("  " ++ "k" ++ " ")) Fixture.world0
        = (Ret tt, Fixture.world0)).
Proof.
  apply (authorization_header_forms Fixture.env "k" "  " " " None Fixture.world0).
  - vm_compute. reflexivity.
  - reflexivity.
  - reflexivity.
  - left. reflexivity.
Defined.

Lemma malformed_token_blob_is_fatal_witness :
  get_drive_service Cases.oauth_bad_blob Fixture.env Fixture.local_world =
    (Raise (ValueError "GOOGLE_DRIVE_TOKEN_JSON is set but invalid. Paste the full contents of token.json (from a local OAuth run)."),
     Fixture.local_world).
Proof.
  apply (malformed_token_blob_is_fatal Cases.oauth_bad_blob Fixture.env
           (ValueError "Expecting value") Fixture.local_world).
  - vm_compute. discriminate.
  - reflexivity.
Defined.

Lemma valid_stored_credentials_are_used_witness :
  get_drive_service Fixture.oauth Fixture.env Fixture.local_world =
    (Ret {| svc_credentials := Fixture.fresh |}, Fixture.local_world).
Proof.
  apply (valid_stored_credentials_are_used Fixture.oauth Fixture.env Fixture.fresh
           Fixture.local_world).
  - left. split; [vm_compute; discriminate | reflexivity].
  - reflexivity.
Defined.

Lemma expired_credentials_are_refreshed_witness :
  get_drive_service Cases.oauth_refresh Fixture.env Fixture.world0 =
    (Ret {| svc_credentials := Fixture.fresh |}, Fixture.world0).
Proof.
  apply (expired_credentials_are_refreshed Cases.oauth_refresh Fixture.env
           Cases.renewable "r" Fixture.world0).
  - vm_compute. reflexivity.
  - reflexivity.
  - reflexivity.
  - reflexivity.
  - discriminate.
  - reflexivity.
Defined.

Lemma no_credential_source_witness :
  get_drive_service Fixture.oauth Fixture.env_local Cases.bare_world =
    (Raise (FileNotFoundError "Google OAuth credentials not found. For Railway: set GOOGLE_DRIVE_TOKEN_JSON (full token.json from a local OAuth run). For local first run: save credentials.json here or set GOOGLE_DRIVE_CREDENTIALS_JSON."),
     Cases.bare_world).
Proof.
  apply (no_credential_source Fixture.oauth Fixture.env_local Cases.bare_world).
  - vm_compute. reflexivity.
  - vm_compute. reflexivity.
  - vm_compute. reflexivity.
  - vm_compute. reflexivity.
Defined.

Lemma get_drive_service_effects_witness :
  let out := get_drive_service Fixture.oauth Fixture.env_local Fixture.first_run_world in
  store (snd out) = store Fixture.first_run_world
  /\ calls (snd out) = calls Fixture.first_run_world
  /\ (forall p, p <> TOKEN_FILE -> fs (snd out) !! p = fs Fixture.first_run_world !! p)
  /\ (is_Some (fs Fixture.first_run_world !! TOKEN_FILE) ->
      fs (snd out) = fs Fixture.first_run_world)
  /\ (forall e, fst out = Raise e -> snd out = Fixture.first_run_world).
Proof.
  intros out.
  apply (get_drive_service_effects Fixture.oauth Fixture.env_local
           Fixture.first_run_world (snd out) (fst out)).
  vm_compute. reflexivity.
Defined.

Lemma gated_success_requires_secret_witness :
  get_api_key Fixture.env = Ret (candidate (Some "k") None).
Proof.
  apply (gated_success_requires_secret Drive.provider Fixture.oauth Fixture.env
           (fun s => s) (fun s => s) (GET_list (Some "k") None None None)
           (Some "k") None Fixture.world0
           (snd (Fixture.run Fixture.env (GET_list (Some "k") None None None) Fixture.world0))
           (fst (Fixture.run Fixture.env (GET_list (Some "k") None None None) Fixture.world0))).
  - reflexivity.
  - vm_compute. reflexivity.
  - left. vm_compute. eexists. reflexivity.
Defined.

Lemma read_in_scope_outcome_witness :
  fst (Fixture.run Fixture.env (GET_files_content "y" (Some "k") None) Fixture.world0)
  = OK (PlainTextResponse "c").
Proof.
  unfold Fixture.run.
  rewrite (read_in_scope_outcome Drive.provider Fixture.oauth Fixture.env
             (fun s => s) (fun s => s) "y" "k" "F" (Some "k") None Cases.svc
             (Drive.resource "id, name, mimeType, parents"
                (Fixture.file "y" "note.txt" "text/plain" ["F"]))
             Fixture.world0 Fixture.world0
             (snd (get_playground_folder_id Drive.provider Fixture.env Cases.svc
                     Fixture.world0))
             Fixture.drive Fixture.drive (Ret "c")).
  - reflexivity.
  - vm_compute. reflexivity.
  - vm_compute. reflexivity.
  - vm_compute. reflexivity.
  - vm_compute. reflexivity.
  - vm_compute. reflexivity.
  - apply contains_elem_of. vm_compute. reflexivity.
  - vm_compute. reflexivity.
Defined.

Lemma read_metadata_failure_is_uncaught_witness :
  fst (Fixture.run Fixture.env (GET_files_content "nope" (Some "k") None) Fixture.world0)
  = InternalServerError (LibraryError "HttpError" "404: File not found: nope").
Proof.
  unfold Fixture.run.
  rewrite (read_metadata_failure_is_uncaught Drive.provider Fixture.oauth Fixture.env
             (fun s => s) (fun s => s) "nope" "k" "F" "HttpError"
             "404: File not found: nope" (Some "k") None Cases.svc
             Fixture.world0 Fixture.world0
             (snd (get_playground_folder_id Drive.provider Fixture.env Cases.svc
                     Fixture.world0))
             Fixture.drive).
  - reflexivity.
  - vm_compute. reflexivity.
  - vm_compute. reflexivity.
  - vm_compute. reflexivity.
  - vm_compute. reflexivity.
  - vm_compute. reflexivity.
Defined.

Lemma read_routes_only_read_witness :
  exists cs,
    calls (snd (Fixture.run Fixture.env (GET_files_content "y" (Some "k") None)
                  Fixture.world0))
      = (calls Fixture.world0 ++ cs)%list
    /\ Forall is_read_call cs.
Proof.
  apply (read_routes_only_read Drive.provider Fixture.oauth Fixture.env
           (fun s => s) (fun s => s) (GET_files_content "y" (Some "k") None)
           Fixture.world0 _
           (fst (Fixture.run Fixture.env (GET_files_content "y" (Some "k") None)
                   Fixture.world0))).
  - discriminate.
  - vm_compute. reflexivity.
Defined.

Lemma read_routes_keep_reference_store_witness :
  store (snd (Fixture.run Fixture.env (GET_list (Some "k") None None (Some 1%Z))
                Fixture.world0))
  = store Fixture.world0.
Proof.
  apply (read_routes_keep_reference_store Fixture.oauth Fixture.env
           (fun s => s) (fun s => s) (GET_list (Some "k") None None (Some 1%Z))
           Fixture.world0 _
           (fst (Fixture.run Fixture.env (GET_list (Some "k") None None (Some 1%Z))
                   Fixture.world0))).
  - discriminate.
  - vm_compute. reflexivity.
Defined.

Lemma read_success_implies_in_scope_witness :
  exists svc w1 folder_id w2 meta s3 bytes s4,
    get_drive_service Fixture.oauth Fixture.env Fixture.world0 = (Ret svc, w1)
    /\ get_playground_folder_id Drive.provider Fixture.env svc w1 = (Ret folder_id, w2)
    /\ files_get Drive.provider svc "y" "id, name, mimeType, parents" (store w2)
       = (Ret meta, s3)
    /\ folder_id ∈ default [] (parents meta)
    /\ files_get_media Drive.provider svc "y" s3 = (Ret bytes, s4)
    /\ PlainTextResponse "c" = PlainTextResponse bytes.
Proof.
  apply (read_success_implies_in_scope Drive.provider Fixture.oauth Fixture.env
           (fun s => s) (fun s => s) "y" (Some "k") None Fixture.world0
           (snd (Fixture.run Fixture.env (GET_files_content "y" (Some "k") None)
                   Fixture.world0))
           (PlainTextResponse "c")).
  vm_compute. reflexivity.
Defined.


Lemma failed_upload_is_not_rolled_back_witness :
  let body := {| wb_name := "note.txt"; wb_content := "hi"; wb_mime_type := "text/plain" |} in
  fst (write_file Cases.no_upload Fixture.oauth Fixture.env (fun s => s) body
         (Some "k") None Fixture.world0)
  = Raise (Drive.HttpError "500" "Backend Error").
Proof.
  intros body.
  rewrite (failed_upload_is_not_rolled_back Cases.no_upload Fixture.oauth Fixture.env
             (fun s => s) body (Some "k") None "k" "F" Cases.svc
             {| files := Some [Drive.resource "files(id)"
                                 (Fixture.file "y" "note.txt" "text/plain" ["F"])];
                nextPageToken := None |}
             (Drive.resource "files(id)" (Fixture.file "y" "note.txt" "text/plain" ["F"]))
             [] (Drive.HttpError "500" "Backend Error")
             Fixture.world0 Fixture.world0
             (snd (get_playground_folder_id Cases.no_upload Fixture.env Cases.svc
                     Fixture.world0))
             Fixture.drive
             (snd (Drive.update Cases.svc "y"
                     (Some {| b_name := Some "note.txt"; b_mimeType := None;
                              b_parents := None |}) None Fixture.drive))
             (snd (Drive.update Cases.svc "y"
                     (Some {| b_name := Some "note.txt"; b_mimeType := None;
                              b_parents := None |}) None Fixture.drive))).
  - reflexivity.
  - vm_compute. reflexivity.
  - vm_compute. reflexivity.
  - vm_compute. reflexivity.
  - vm_compute. reflexivity.
  - vm_compute. reflexivity.
  - reflexivity.
  - vm_compute. reflexivity.
  - vm_compute. reflexivity.
Defined.

Lemma list_returns_scope_children_witness :
  exists lr,
    ListJSON
      {| lr_files :=
           [Drive.resource "nextPageToken, files(id, name, mimeType, modifiedTime, size)"
              (Fixture.file "x" "it's" "text/plain" ["F"])];
         lr_nextPageToken := Some "+" |} = ListJSON lr
    /\ (Z.of_nat (length (lr_files lr)) <= 1)%Z
    /\ Forall (fun entry =>
                 exists f, f ∈ store Fixture.world0 /\ in_scope "F" f = true
                           /\ id entry = Drive.f_id f)
              (lr_files lr).
Proof.
  apply (list_returns_scope_children Fixture.oauth Fixture.env (fun s => s) (fun s => s)
           (Some "k") None None 1 "F" Cases.svc Fixture.world0 Fixture.world0
           (snd (get_playground_folder_id Drive.provider Fixture.env Cases.svc
                   Fixture.world0))
           (snd (Fixture.run Fixture.env (GET_list (Some "k") None None (Some 1%Z))
                   Fixture.world0))).
  - vm_compute. reflexivity.
  - vm_compute. reflexivity.
  - reflexivity.
  - vm_compute. reflexivity.
Defined.

Lemma folder_resolution_on_reference_witness :
  fst (get_playground_folder_id Drive.provider Fixture.env Cases.svc Fixture.world0)
  = Ret "F".
Proof.
  rewrite (folder_resolution_on_reference Fixture.env Cases.svc Fixture.world0).
  - vm_compute. reflexivity.
  - vm_compute. reflexivity.
  - repeat constructor.
Defined.





(** A create with a content type that has no "/" fails in the client library:
    an unhandled error, and no file is added. *)
Example scenario_create_bad_content_type :
  Fixture.run Fixture.env
    (POST_write (Some "k") None
       {| j_name := Some "new.txt"; j_content := Some "hi"; j_mime_type := Some "plain" |})
    Fixture.world0
  = (InternalServerError
       (LibraryError "TypeError"
          "MIMEBase.__init__() got the wrong number of positional arguments"),
     {| fs := fs Fixture.world0; store := Fixture.drive;
        calls := calls (snd (Fixture.run Fixture.env
                               (POST_write (Some "k") None
                                  {| j_name := Some "new.txt"; j_content := Some "hi";
                                     j_mime_type := Some "plain" |})
                               Fixture.world0)) |}).
Proof. vm_compute. reflexivity. Qed.
